(** * libtado.api_async: session, TTL-cached accessors, zones

    A shallow embedding of [src/libtado/api_async.py].  Python values
    are the JSON values the module exchanges with the vendor API;
    coroutines become computations in a state-and-exception monad whose
    state holds the monotonic clock, the HTTP exchanges with the server
    and the object heap ([Home] and [Zone] instances are mutable and are
    referred to by address). *)

From Stdlib Require Import ZArith Ascii String List Bool Lia.
From Stdlib.Floats Require Import SpecFloat.
From stdpp Require Import gmap strings list fin_maps.

#[local] Set Warnings "-register-all".
#[local] Open Scope string_scope.
#[local] Open Scope Z_scope.
#[local] Open Scope list_scope.

(** ** Python values *)

(** [Object] of the source (what [response.json()] yields): [None],
    booleans, arbitrary-precision integers, binary64 floats, strings,
    lists and string-keyed dictionaries. *)
Inductive pyval : Type :=
| PNone
| PBool (b : bool)
| PInt (n : Z)
| PFloat (f : spec_float)
| PStr (s : string)
| PList (l : list pyval)
| PDict (d : gmap string pyval).

(** Exceptions the module can let escape: Python built-ins, the ones of
    aiohttp ([raise_for_status], connection failures, a body that is not
    JSON), and the ones of cachetools and glom.  The module defines no
    exception class of its own. *)
Inductive exn : Type :=
| KeyError (key : pyval)
| IndexError
| TypeError
| AttributeError
| ValueError
| ClientResponseError (status : Z)
| ClientConnectionError
| ContentTypeError
| PathAccessError (segment : string).

Inductive result (A : Type) : Type :=
| Ok (a : A)
| Raise (e : exn).
Arguments Ok {A} a.
Arguments Raise {A} e.

(** *** Comparison with an [int] literal

    Python compares an [int] with a [float] exactly, without rounding
    the integer: [m * 2^e ? n] is decided over the integers. *)
Definition float_cmp_int (f : spec_float) (n : Z) : option comparison :=
  match f with
  | S754_nan => None
  | S754_infinity s => Some (if s then Lt else Gt)
  | S754_zero _ => Some (0 ?= n)
  | S754_finite s m e =>
      let sm := if s then Z.neg m else Z.pos m in
      Some (if 0 <=? e then sm * 2 ^ e ?= n else sm ?= n * 2 ^ (- e))
  end.

(** [v ? n] for a number [v] ([bool] is a subclass of [int]); any other
    left operand makes [<] and [>=] against an [int] raise [TypeError]. *)
Definition cmp_int (v : pyval) (n : Z) : result (option comparison) :=
  match v with
  | PBool b => Ok (Some (Z.b2z b ?= n))
  | PInt k => Ok (Some (k ?= n))
  | PFloat f => Ok (float_cmp_int f n)
  | _ => Raise TypeError
  end.

(** [v < n] *)
Definition py_lt (v : pyval) (n : Z) : result bool :=
  match cmp_int v n with
  | Ok (Some Lt) => Ok true
  | Ok _ => Ok false
  | Raise e => Raise e
  end.

(** [v >= n] *)
Definition py_ge (v : pyval) (n : Z) : result bool :=
  match cmp_int v n with
  | Ok (Some Lt) | Ok None => Ok false
  | Ok (Some _) => Ok true
  | Raise e => Raise e
  end.

(** [v == s] for a [str] literal [s]. *)
Definition py_eq_str (v : pyval) (s : string) : bool :=
  match v with
  | PStr t => String.eqb t s
  | _ => false
  end.

(** [s + v] for a [str] literal [s]: concatenation, [TypeError] unless
    [v] is a [str]. *)
Definition str_add (s : string) (v : pyval) : result string :=
  match v with
  | PStr t => Ok (s +:+ t)
  | _ => Raise TypeError
  end.

(** [v[k]] for a [str] key [k].  A dictionary without the key raises
    [KeyError]; lists and strings accept integer indices only, the
    other values are not subscriptable. *)
Definition getitem (v : pyval) (k : string) : result pyval :=
  match v with
  | PDict d =>
      match d !! k with
      | Some x => Ok x
      | None => Raise (KeyError (PStr k))
      end
  | _ => Raise TypeError
  end.

(** [v[i]] for an [int] literal [i >= 0]. *)
Definition getindex (v : pyval) (i : nat) : result pyval :=
  match v with
  | PList l =>
      match l !! i with
      | Some x => Ok x
      | None => Raise IndexError
      end
  | PStr s =>
      match String.get i s with
      | Some c => Ok (PStr (String c EmptyString))
      | None => Raise IndexError
      end
  | PDict _ => Raise (KeyError (PInt (Z.of_nat i)))
  | _ => Raise TypeError
  end.

(** The sequence [for x in v] runs over: the elements of a list, the
    keys of a dictionary, the characters of a string.  Dictionaries
    decoded from JSON list their keys in document order, which the
    finite map does not record; the order used here is the map's own. *)
Definition py_iter (v : pyval) : result (list pyval) :=
  match v with
  | PList l => Ok l
  | PDict d => Ok (PStr <$> (map_to_list d).*1)
  | PStr s => Ok ((λ c, PStr (String c EmptyString)) <$> list_ascii_of_string s)
  | _ => Raise TypeError
  end.

(** *** Dictionaries keyed by arbitrary hashable values

    [Home.zones] builds a [dict] keyed by whatever [zone["id"]] is.
    Lists and dictionaries are unhashable; the numbers compare across
    [bool], [int] and [float] ([1 == 1.0 == True] is one key). *)
Definition hashable (v : pyval) : bool :=
  match v with
  | PList _ | PDict _ => false
  | _ => true
  end.

Definition as_int (v : pyval) : option Z :=
  match v with
  | PBool b => Some (Z.b2z b)
  | PInt n => Some n
  | _ => None
  end.

Definition key_eqb (a b : pyval) : bool :=
  match a, b with
  | PNone, PNone => true
  | PStr s, PStr t => String.eqb s t
  | PFloat f, PFloat g => SFeqb f g
  | PFloat f, x =>
      match as_int x with
      | Some n => match float_cmp_int f n with Some Eq => true | _ => false end
      | None => false
      end
  | x, PFloat f =>
      match as_int x with
      | Some n => match float_cmp_int f n with Some Eq => true | _ => false end
      | None => false
      end
  | x, y =>
      match as_int x, as_int y with
      | Some n, Some m => n =? m
      | _, _ => false
      end
  end.

(** A [dict] in insertion order.  [d[k] = v] overwrites the value of an
    equal key where it stands and appends a new key at the end. *)
Fixpoint dict_set {V : Type} (d : list (pyval * V)) (k : pyval) (v : V)
  : list (pyval * V) :=
  match d with
  | [] => [(k, v)]
  | (k', v') :: rest =>
      if key_eqb k' k then (k', v) :: rest else (k', v') :: dict_set rest k v
  end.

Fixpoint dict_get {V : Type} (d : list (pyval * V)) (k : pyval) : option V :=
  match d with
  | [] => None
  | (k', v') :: rest => if key_eqb k' k then Some v' else dict_get rest k
  end.

(** ** Objects *)

(** Addresses of [Home] and [Zone] instances in the heap. *)
Definition loc : Type := nat.

(** What a cached accessor can hold: a decoded JSON body, or the
    mapping from zone id to [Zone] instance built by [Home.zones]. *)
Inductive value : Type :=
| VJson (j : pyval)
| VZones (d : list (pyval * loc)).

(** *** cachetools.TTLCache *)

(** Modelled from the spec: [cachetools.TTLCache], a third-party class
    the module instantiates but does not define.  A cache entry holds
    (value, inserted_at); an entry whose age has reached [ttl] is
    treated as absent; inserting into a cache that already holds
    [maxsize] entries evicts the least recently used entry first. *)
Record entry : Type := { stored : value; inserted_at : Z }.

(** Modelled from the spec: the state of a [cachetools.TTLCache], with
    its entries kept least recently used first. *)
Record TTLCache : Type :=
  { maxsize : Z; ttl : Z; links : list (string * entry) }.

(** Modelled from the spec: the age test of [cachetools.TTLCache]; an
    entry counts while its age is below [ttl]. *)
Definition live (c : TTLCache) (t : Z) (e : entry) : bool :=
  t - inserted_at e <? ttl c.

(** The entry stored under [key], if any. *)
Fixpoint assoc (key : string) (l : list (string * entry)) : option entry :=
  match l with
  | [] => None
  | (k, e) :: rest => if String.eqb k key then Some e else assoc key rest
  end.

(** The entries without the one of [key]. *)
Definition unlink (key : string) (l : list (string * entry))
  : list (string * entry) :=
  List.filter (λ p, negb (String.eqb (fst p) key)) l.

(** Modelled from the spec: [key in cache] of [cachetools.TTLCache] at
    time [t]; it does not count as a use. *)
Definition TTLCache_contains (c : TTLCache) (key : string) (t : Z) : bool :=
  match assoc key (links c) with
  | Some e => live c t e
  | None => false
  end.

(** Modelled from the spec: [cache[key]] of [cachetools.TTLCache] at
    time [t]: the stored value of a live entry, which becomes the most
    recently used one; [None] stands for [KeyError]. *)
Definition TTLCache_getitem (c : TTLCache) (key : string) (t : Z)
  : option (value * TTLCache) :=
  match assoc key (links c) with
  | Some e =>
      if live c t e
      then Some (stored e,
                 {| maxsize := maxsize c; ttl := ttl c;
                    links := unlink key (links c) ++ [(key, e)] |})
      else None
  | None => None
  end.

(** Modelled from the spec: [cache[key] = v] of [cachetools.TTLCache]
    at time [t]: expired entries are dropped, a live entry for [key] is
    replaced, otherwise the least recently used entry makes room when
    the cache already holds [maxsize] entries.  [None] stands for the
    [ValueError] of a cache that cannot hold a single entry. *)
Definition TTLCache_setitem (c : TTLCache) (key : string) (v : value) (t : Z)
  : option TTLCache :=
  if maxsize c <? 1 then None
  else
    let alive := List.filter (λ p, live c t (snd p)) (links c) in
    let kept :=
      match assoc key alive with
      | Some _ => unlink key alive
      | None =>
          if maxsize c <=? Z.of_nat (length alive) then tail alive else alive
      end in
    Some {| maxsize := maxsize c; ttl := ttl c;
            links := kept ++ [(key, {| stored := v; inserted_at := t |})] |}.

(** *** Home and Zone instances *)

(** The attributes set by [Home.__init__], and [__cache__], which
    [cached_get] attaches on first use ([None] until then).  The
    [session] attribute is the connection to the server; the server is
    part of the global state below.  [access_headers] is only ever
    reached through the instance, so the dictionary is kept in place. *)
Record Home : Type :=
  { username : string;
    secret : string;
    home_id : pyval;
    access_token : pyval;
    refresh_token : pyval;
    access_headers : gmap string string;
    temperature_unit : string;
    home_cache : option TTLCache }.

(** The attributes set by [Zone.__init__], and [__cache__]. *)
Record Zone : Type :=
  { zone_id : pyval;
    name : pyval;
    api : loc;
    extras : gmap string pyval;
    zone_cache : option TTLCache }.

Inductive obj : Type :=
| OHome (h : Home)
| OZone (z : Zone).

(** ** The server and the global state *)

(** An f-string is kept as its parts: literal text and formatted values. *)
Inductive fpart : Type :=
| Lit (s : string)
| Fmt (v : pyval).

(** A literal address, or [urljoin(base, cmd)] kept as its arguments. *)
Inductive url : Type :=
| Url (s : string)
| urljoin (base : string) (cmd : list fpart).

(** What [session.request] is called with. *)
Record request : Type :=
  { method : string;
    target : url;
    json : option pyval;
    data : option (gmap string pyval);
    headers : option (gmap string string) }.

(** What comes back: no response at all, or a status with a body that
    decodes as JSON or does not. *)
Inductive reply : Type :=
| ConnFail
| Resp (status : Z) (body : option pyval).

(** One exchange with the server: the time it takes and the outcome. *)
Record exchange : Type := { elapsed : nat; answer : reply }.

(** An [aiohttp.ClientResponse]: what the module reads of it. *)
Record response : Type := { status_of : Z; body_of : option pyval }.

(** [now] is the reading of [time.monotonic], the timer of [TTLCache],
    in whole seconds, the unit of [ttl]; [pending] the exchanges the
    server will take part in, in order; [sent] the requests issued so
    far, oldest first; [heap] the instances, by address. *)
Record state : Type :=
  { now : Z;
    pending : list exchange;
    sent : list request;
    heap : list obj }.

(** ** The monad of coroutines

    A raised exception keeps the state reached so far: attribute
    assignments made before the [raise] stay made. *)
Definition M (A : Type) : Type := state → result A * state.

#[global] Instance M_ret : MRet M := λ A a s, (Ok a, s).

#[global] Instance M_bind : MBind M := λ A B f m s,
  match m s with
  | (Ok a, s') => f a s'
  | (Raise e, s') => (Raise e, s')
  end.

#[global] Instance M_fmap : FMap M := λ A B f m s,
  match m s with
  | (Ok a, s') => (Ok (f a), s')
  | (Raise e, s') => (Raise e, s')
  end.

(** [raise e] *)
Definition raise {A : Type} (e : exn) : M A := λ s, (Raise e, s).

(** An expression that touches no state: its value, or its exception. *)
Definition lift {A : Type} (r : result A) : M A := λ s, (r, s).

(** A reading of the clock. *)
Definition timer : M Z := λ s, (Ok (now s), s).

Definition set_heap (hp : list obj) (s : state) : state :=
  {| now := now s; pending := pending s; sent := sent s; heap := hp |}.

(** Attribute access through a reference. *)
Definition load (l : loc) : M obj := λ s,
  match heap s !! l with
  | Some o => (Ok o, s)
  | None => (Raise AttributeError, s)
  end.

(** Attribute assignment through a reference. *)
Definition store (l : loc) (o : obj) : M unit := λ s,
  (Ok tt, set_heap (<[l := o]> (heap s)) s).

(** Instantiation: the new object gets the next free address. *)
Definition new (o : obj) : M loc := λ s,
  (Ok (length (heap s)), set_heap (heap s ++ [o]) s).

(** The object behind [l] used as a [Home]: a [Zone] has none of its
    attributes. *)
Definition load_home (l : loc) : M Home :=
  o ← load l;
  match o with
  | OHome h => mret h
  | OZone _ => raise AttributeError
  end.

(** The object behind [l] used as a [Zone]. *)
Definition load_zone (l : loc) : M Zone :=
  o ← load l;
  match o with
  | OZone z => mret z
  | OHome _ => raise AttributeError
  end.

(** ** aiohttp

    A request is recorded and answered by the next pending exchange;
    a server that has nothing more to say is a connection failure. *)
Definition send (r : request) : M response := λ s,
  match pending s with
  | [] =>
      (Raise ClientConnectionError,
       {| now := now s; pending := []; sent := sent s ++ [r]; heap := heap s |})
  | x :: rest =>
      let s' := {| now := now s + Z.of_nat (elapsed x); pending := rest;
                   sent := sent s ++ [r]; heap := heap s |} in
      match answer x with
      | ConnFail => (Raise ClientConnectionError, s')
      | Resp st b => (Ok {| status_of := st; body_of := b |}, s')
      end
  end.

(** [response.raise_for_status()]: aiohttp raises for a status of 400
    and above; a redirect or an informational status is no error to it. *)
Definition raise_for_status (r : response) : M unit :=
  if 400 <=? status_of r then raise (ClientResponseError (status_of r))
  else mret tt.

(** [await response.json()]: the decoded body, or the error of a body
    that is not JSON. *)
Definition response_json (r : response) : M pyval :=
  match body_of r with
  | Some v => mret v
  | None => raise ContentTypeError
  end.

Definition HEADERS : gmap string string :=
  {[ "Referer" := "https://my.tado.com/" ]}.

Definition API_URL : string := "https://my.tado.com/api/v2/".

(** ** async_cached_property *)

(** [hasattr(self, "__cache__")] / [getattr(self, "__cache__")] *)
Definition cache_of (o : obj) : option TTLCache :=
  match o with
  | OHome h => home_cache h
  | OZone z => zone_cache z
  end.

(** [setattr(self, "__cache__", c)] *)
Definition with_cache (o : obj) (c : TTLCache) : obj :=
  match o with
  | OHome h =>
      OHome {| username := username h; secret := secret h;
               home_id := home_id h; access_token := access_token h;
               refresh_token := refresh_token h;
               access_headers := access_headers h;
               temperature_unit := temperature_unit h;
               home_cache := Some c |}
  | OZone z =>
      OZone {| zone_id := zone_id z; name := name z; api := api z;
               extras := extras z; zone_cache := Some c |}
  end.

(** The cache object attached to [self]. *)
Definition getattr_cache (self : loc) : M TTLCache :=
  o ← load self;
  match cache_of o with
  | Some c => mret c
  | None => raise AttributeError
  end.

(** An in-place update of the cache object attached to [self]. *)
Definition update_cache (self : loc) (c : TTLCache) : M unit :=
  o ← load self;
  store self (with_cache o c).

(** The coroutine behind the property: [key] is [prop.__name__].  The
    local [cache] is a reference to the object attached to [self]; after
    the [await] that object is reached through [self] again. *)
Definition cached_get (key : string) (maxsize ttl : Z)
    (prop : loc → M value) (self : loc) : M value :=
  o ← load self;
  _ ← match cache_of o with
      | None =>
          store self
            (with_cache o {| maxsize := maxsize; ttl := ttl; links := [] |})
      | Some _ => mret tt
      end;
  cache ← getattr_cache self;
  t ← timer;
  if TTLCache_contains cache key t then
    t ← timer;
    match TTLCache_getitem cache key t with
    | Some (v, cache') => _ ← update_cache self cache'; mret v
    | None => raise (KeyError (PStr key))
    end
  else
    v ← prop self;
    cache ← getattr_cache self;
    t ← timer;
    match TTLCache_setitem cache key v t with
    | Some cache' => _ ← update_cache self cache'; mret v
    | None => raise ValueError
    end.

(** [@async_cached_property] without arguments: 16 entries, 60 seconds. *)
Definition async_cached_property (key : string) (prop : loc → M value)
  : loc → M value :=
  cached_get key 16 60 prop.

(** ** class Zone: construction *)

(** [Zone(api, **kwargs)].  The keywords must be a mapping, must bind
    [id] and [name], and must not bind the positional parameters [self]
    and [api] a second time; the remaining ones are the [extras]. *)
Definition Zone_init (api : loc) (kwargs : pyval) : M loc :=
  match kwargs with
  | PDict d =>
      match d !! "self", d !! "api", d !! "id", d !! "name" with
      | None, None, Some i, Some n =>
          new (OZone {| zone_id := i; name := n; api := api;
                        extras := base.delete "id" (base.delete "name" d);
                        zone_cache := None |})
      | _, _, _, _ => raise TypeError
      end
  | _ => raise TypeError
  end.

(** ** class Home *)
Module Home.

Definition setattr (self : loc) (f : Home → Home) : M unit :=
  h ← load_home self;
  store self (OHome (f h)).

Definition set_access_token (v : pyval) (h : Home) : Home :=
  {| username := username h; secret := secret h; home_id := home_id h;
     access_token := v; refresh_token := refresh_token h;
     access_headers := access_headers h;
     temperature_unit := temperature_unit h; home_cache := home_cache h |}.

Definition set_refresh_token (v : pyval) (h : Home) : Home :=
  {| username := username h; secret := secret h; home_id := home_id h;
     access_token := access_token h; refresh_token := v;
     access_headers := access_headers h;
     temperature_unit := temperature_unit h; home_cache := home_cache h |}.

Definition set_header (k v : string) (h : Home) : Home :=
  {| username := username h; secret := secret h; home_id := home_id h;
     access_token := access_token h; refresh_token := refresh_token h;
     access_headers := <[k := v]> (access_headers h);
     temperature_unit := temperature_unit h; home_cache := home_cache h |}.

Definition _api_call (self : loc) (cmd : list fpart) (method : string)
    (json : option pyval) (data : option (gmap string pyval)) : M pyval :=
  h ← load_home self;
  response ← send {| method := method; target := urljoin API_URL cmd;
                     json := json; data := data;
                     headers := Some (access_headers h) |};
  _ ← raise_for_status response;
  response_json response.

Definition get (self : loc) (cmd : list fpart) : M pyval :=
  _api_call self cmd "GET" None None.

Definition put (self : loc) (cmd : list fpart) (json : pyval) : M pyval :=
  _api_call self cmd "PUT" (Some json) None.

Definition delete (self : loc) (cmd : list fpart) : M pyval :=
  _api_call self cmd "DELETE" None None.

Definition refresh_auth (self : loc) : M unit :=
  h ← load_home self;
  let data : gmap string pyval :=
    {[ "client_id" := PStr "tado-web-app";
       "client_secret" := PStr (secret h);
       "grant_type" := PStr "refresh_token";
       "refresh_token" := refresh_token h;
       "scope" := PStr "home.user" ]} in
  request ← send {| method := "POST";
                    target := Url "https://auth.tado.com/oauth/token";
                    json := None; data := Some data;
                    headers := Some (access_headers h) |};
  _ ← raise_for_status request;
  response ← response_json request;
  a ← lift (getitem response "access_token");
  _ ← setattr self (set_access_token a);
  r ← lift (getitem response "refresh_token");
  _ ← setattr self (set_refresh_token r);
  h ← load_home self;
  bearer ← lift (str_add "Bearer " (access_token h));
  setattr self (set_header "Authorization" bearer).

Definition get_capabilities (self : loc) (zone : pyval) : M pyval :=
  h ← load_home self;
  get self [Lit "homes/"; Fmt (home_id h); Lit "/zones/"; Fmt zone;
            Lit "/capabilities"].

Definition devices_prop (self : loc) : M value :=
  h ← load_home self;
  VJson <$> get self [Lit "homes/"; Fmt (home_id h); Lit "/devices"].

Definition devices : loc → M value :=
  async_cached_property "devices" devices_prop.

Definition get_early_start (self : loc) (zone : pyval) : M pyval :=
  h ← load_home self;
  response ← get self [Lit "homes/"; Fmt (home_id h); Lit "/zones/";
                       Fmt zone; Lit "/earlyStart"];
  lift (getitem response "enabled").

Definition get_state (self : loc) (zone : pyval) : M pyval :=
  h ← load_home self;
  get self [Lit "homes/"; Fmt (home_id h); Lit "/zones/"; Fmt zone;
            Lit "/state"].

(** [{zone["id"]: Zone(self, **zone) for zone in zones}]: for each
    item the key is evaluated, then the value, then the pair is stored,
    which is where an unhashable key raises. *)
Fixpoint zones_comprehension (self : loc) (items : list pyval)
    (acc : list (pyval * loc)) : M (list (pyval * loc)) :=
  match items with
  | [] => mret acc
  | zone :: rest =>
      k ← lift (getitem zone "id");
      z ← Zone_init self zone;
      if hashable k then zones_comprehension self rest (dict_set acc k z)
      else raise TypeError
  end.

Definition zones_prop (self : loc) : M value :=
  h ← load_home self;
  zones ← get self [Lit "homes/"; Fmt (home_id h); Lit "/zones"];
  items ← lift (py_iter zones);
  VZones <$> zones_comprehension self items [].

Definition zones : loc → M value :=
  async_cached_property "zones" zones_prop.

Definition get_termination_dict (termination : pyval) : pyval :=
  if py_eq_str termination "MANUAL" then
    PDict {[ "type" := PStr "MANUAL" ]}
  else if py_eq_str termination "AUTO" then
    PDict {[ "type" := PStr "TADO_MODE" ]}
  else
    PDict {[ "type" := PStr "TIMER"; "durationInSeconds" := termination ]}.

Definition get_setting_dict (temperature : pyval) : result pyval :=
  match py_lt temperature 5 with
  | Ok true => Ok (PDict {[ "type" := PStr "HEATING"; "power" := PStr "OFF" ]})
  | Ok false =>
      Ok (PDict {[ "type" := PStr "HEATING"; "power" := PStr "ON";
                   "temperature" := PDict {[ "celsius" := temperature ]} ]})
  | Raise e => Raise e
  end.

(** The local [payload] of [set_temperature]. *)
Definition payload (temperature termination : pyval) : result pyval :=
  match get_setting_dict temperature with
  | Ok setting =>
      Ok (PDict {[ "setting" := setting;
                   "termination" := get_termination_dict termination ]})
  | Raise e => Raise e
  end.

Definition set_temperature (self : loc) (zone temperature termination : pyval)
  : M pyval :=
  payload ← lift (payload temperature termination);
  h ← load_home self;
  put self [Lit "homes/"; Fmt (home_id h); Lit "/zones/"; Fmt zone;
            Lit "/overlay"] payload.

(** The remaining accessors of the class, in the order of the source. *)

Definition presence (self : loc) : M pyval :=
  h ← load_home self;
  get self [Lit "homes/"; Fmt (home_id h); Lit "/presence"].

Definition home_prop (self : loc) : M value :=
  h ← load_home self;
  VJson <$> get self [Lit "homes/"; Fmt (home_id h)].

Definition home : loc → M value :=
  async_cached_property "home" home_prop.

Definition home_state (self : loc) : M pyval :=
  h ← load_home self;
  get self [Lit "homes/"; Fmt (home_id h); Lit "/state"].

Definition set_presence (self : loc) (to : pyval) : M pyval :=
  h ← load_home self;
  put self [Lit "homes/"; Fmt (home_id h); Lit "/presence"]
    (PDict {[ "homePresence" := to ]}).

Definition installations_prop (self : loc) : M value :=
  h ← load_home self;
  VJson <$> get self [Lit "homes/"; Fmt (home_id h); Lit "/installations"].

Definition installations : loc → M value :=
  async_cached_property "installations" installations_prop.

Definition invitations_prop (self : loc) : M value :=
  h ← load_home self;
  VJson <$> get self [Lit "homes/"; Fmt (home_id h); Lit "/invitations"].

Definition invitations : loc → M value :=
  async_cached_property "invitations" invitations_prop.

Definition me_prop (self : loc) : M value :=
  VJson <$> get self [Lit "me"].

Definition me : loc → M value :=
  async_cached_property "me" me_prop.

Definition mobile_devices_prop (self : loc) : M value :=
  h ← load_home self;
  VJson <$> get self [Lit "homes/"; Fmt (home_id h); Lit "/mobileDevices"].

Definition mobile_devices : loc → M value :=
  async_cached_property "mobile_devices" mobile_devices_prop.

Definition get_schedule (self : loc) (zone : pyval) : M pyval :=
  h ← load_home self;
  get self [Lit "homes/"; Fmt (home_id h); Lit "/zones/"; Fmt zone;
            Lit "/schedule/activeTimetable"].

Definition users_prop (self : loc) : M value :=
  h ← load_home self;
  VJson <$> get self [Lit "homes/"; Fmt (home_id h); Lit "/users"].

Definition users : loc → M value :=
  async_cached_property "users" users_prop.

Definition weather_prop (self : loc) : M value :=
  h ← load_home self;
  VJson <$> get self [Lit "homes/"; Fmt (home_id h); Lit "/weather"].

Definition weather : loc → M value :=
  async_cached_property "weather" weather_prop.

Definition set_early_start (self : loc) (zone enabled : pyval) : M pyval :=
  let payload := PDict {[ "enabled" := enabled ]} in
  h ← load_home self;
  put self [Lit "homes/"; Fmt (home_id h); Lit "/zones/"; Fmt zone;
            Lit "/earlyStart"] payload.

Definition end_manual_control (self : loc) (zone : pyval) : M pyval :=
  h ← load_home self;
  delete self [Lit "homes/"; Fmt (home_id h); Lit "/zones/"; Fmt zone;
               Lit "/overlay"].

End Home.

(** ** glom *)

(** [text.split(sep)] *)
Fixpoint split_on (sep : ascii) (text : string) : list string :=
  match text with
  | EmptyString => [EmptyString]
  | String c rest =>
      if Ascii.eqb c sep then EmptyString :: split_on sep rest
      else
        match split_on sep rest with
        | seg :: segs => String c seg :: segs
        | [] => [String c EmptyString]
        end
  end.

(** Modelled from the spec: [glom.glom], a third-party function the
    module calls but does not define: recursive JSON path extraction.
    A path is followed one key at a time through nested mappings; a
    target that is not a mapping holding the key ends the walk with an
    error naming the segment. *)
Fixpoint access (target : pyval) (segments : list string) : result pyval :=
  match segments with
  | [] => Ok target
  | seg :: rest =>
      match target with
      | PDict d =>
          match d !! seg with
          | Some v => access v rest
          | None => Raise (PathAccessError seg)
          end
      | _ => Raise (PathAccessError seg)
      end
  end.

(** Modelled from the spec: [glom.glom] on a [str] spec, a path whose
    segments are separated by dots.  Every segment is a key: the
    wildcard segments of glom, [*] and [**], are not modelled. *)
Definition glom (target : pyval) (spec : string) : result pyval :=
  access target (split_on "."%char spec).

(** Modelled from the spec: [glom.glom] on a tuple spec, which applies
    its components in turn, each to the result of the one before. *)
Fixpoint glom_tuple (target : pyval) (specs : list string) : result pyval :=
  match specs with
  | [] => Ok target
  | spec :: rest =>
      match glom target spec with
      | Ok v => glom_tuple v rest
      | Raise e => Raise e
      end
  end.

(** Modelled from the spec: [glom.glom] on the target as the accessors
    hand it over; the mapping from zone id to [Zone] has no string key
    to follow. *)
Definition glom_value (target : value) (specs : list string) : result pyval :=
  match target with
  | VJson j => glom_tuple j specs
  | VZones _ =>
      match specs with
      | [] => Raise TypeError
      | spec :: _ => Raise (PathAccessError (hd spec (split_on "."%char spec)))
      end
  end.

(** ** class Zone *)
Module Zone.

Definition state_prop (self : loc) : M value :=
  z ← load_zone self;
  VJson <$> Home.get_state (api z) (zone_id z).

Definition state : loc → M value :=
  async_cached_property "state" state_prop.

Definition early_start_prop (self : loc) : M value :=
  z ← load_zone self;
  VJson <$> Home.get_early_start (api z) (zone_id z).

Definition early_start : loc → M value :=
  async_cached_property "early_start" early_start_prop.

Definition inside_temperature (self : loc) : M pyval :=
  st ← state self;
  z ← load_zone self;
  h ← load_home (api z);
  lift (glom_value st ["sensorDataPoints.insideTemperature";
                       temperature_unit h]).

Definition humidity (self : loc) : M pyval :=
  st ← state self;
  lift (glom_value st ["sensorDataPoints.humidity.percentage"]).

Definition set_temperature (self : loc) (temperature termination : pyval)
  : M pyval :=
  z ← load_zone self;
  Home.set_temperature (api z) (zone_id z) temperature termination.

Definition schedule_prop (self : loc) : M value :=
  z ← load_zone self;
  VJson <$> Home.get_schedule (api z) (zone_id z).

Definition schedule : loc → M value :=
  async_cached_property "schedule" schedule_prop.

Definition capabilities_prop (self : loc) : M value :=
  z ← load_zone self;
  VJson <$> Home.get_capabilities (api z) (zone_id z).

Definition capabilities : loc → M value :=
  async_cached_property "capabilities" capabilities_prop.

Definition end_manual_control (self : loc) : M pyval :=
  z ← load_zone self;
  Home.end_manual_control (api z) (zone_id z).

End Zone.

(** ** login *)
Definition login (username password secret : string) : M loc :=
  let data : gmap string pyval :=
    {[ "client_id" := PStr "tado-web-app";
       "client_secret" := PStr secret;
       "grant_type" := PStr "password";
       "password" := PStr password;
       "scope" := PStr "home.user";
       "username" := PStr username ]} in
  response ← send {| method := "POST";
                     target := Url "https://auth.tado.com/oauth/token";
                     json := None; data := Some data; headers := None |};
  decoded ← response_json response;
  access_token ← lift (getitem decoded "access_token");
  refresh_token ← lift (getitem decoded "refresh_token");
  let access_headers := HEADERS in
  again ← lift (getitem decoded "access_token");
  bearer ← lift (str_add "Bearer " again);
  let access_headers := <["Authorization" := bearer]> access_headers in
  _ ← send {| method := "GET"; target := Url "https://my.tado.com/api/v1/me";
              json := None; data := None; headers := Some access_headers |};
  me_response ← send {| method := "GET"; target := urljoin API_URL [Lit "me"];
                        json := None; data := None;
                        headers := Some access_headers |};
  me ← response_json me_response;
  homes ← lift (getitem me "homes");
  first ← lift (getindex homes 0);
  home_id ← lift (getitem first "id");
  new (OHome {| username := username; secret := secret; home_id := home_id;
                access_token := access_token; refresh_token := refresh_token;
                access_headers := access_headers;
                temperature_unit := "celsius"; home_cache := None |}).

(** ** Vocabulary of the statements *)

(** The state once the exchange [x] has answered the request [r]. *)
Definition after (x : exchange) (rest : list exchange) (r : request)
    (s : state) : state :=
  {| now := now s + Z.of_nat (elapsed x); pending := rest;
     sent := sent s ++ [r]; heap := heap s |}.

(** The request [refresh_auth] posts for the home [h]. *)
Definition refresh_request (h : Home) : request :=
  {| method := "POST"; target := Url "https://auth.tado.com/oauth/token";
     json := None;
     data := Some {[ "client_id" := PStr "tado-web-app";
                     "client_secret" := PStr (secret h);
                     "grant_type" := PStr "refresh_token";
                     "refresh_token" := refresh_token h;
                     "scope" := PStr "home.user" ]};
     headers := Some (access_headers h) |}.

(** The state in which the home at [self] has become [h]. *)
Definition put_home (self : loc) (h : Home) (s : state) : state :=
  set_heap (<[self := OHome h]> (heap s)) s.

(** The home stored at [l], if there is one. *)
Definition home_at (l : loc) (s : state) : option Home :=
  match heap s !! l with
  | Some (OHome h) => Some h
  | _ => None
  end.

(** The field [k] of a response body, if the body is a JSON object
    that has it. *)
Definition token_field (b : option pyval) (k : string) : option pyval :=
  match b with
  | Some (PDict d) => d !! k
  | _ => None
  end.

(** The [Authorization] header carries the stored access token. *)
Definition bearer_matches (h : Home) : Prop :=
  ∃ a, access_token h = PStr a
       ∧ access_headers h !! "Authorization" = Some ("Bearer " +:+ a).

(** The cache once [key] has been read: its entry is the most recently
    used one. *)
Definition touch (key : string) (e : entry) (c : TTLCache) : TTLCache :=
  {| maxsize := maxsize c; ttl := ttl c;
     links := unlink key (links c) ++ [(key, e)] |}.

(** The state in which the cache attached to the object [o] at [self]
    has become [c]. *)
Definition put_cache (self : loc) (o : obj) (c : TTLCache) (s : state)
  : state :=
  set_heap (<[self := with_cache o c]> (heap s)) s.

(** [d] is a zone object with the integer id [i] and the name [n] that
    [Zone(self, **d)] accepts. *)
Definition zone_object (d : gmap string pyval) (i : Z) (n : pyval) : Prop :=
  d !! "id" = Some (PInt i) ∧ d !! "name" = Some n
  ∧ d !! "self" = None ∧ d !! "api" = None.

(** The instance [Zone(api, **d)] for such an object. *)
Definition Zone_of (api : loc) (d : gmap string pyval) : Zone :=
  {| zone_id := default PNone (d !! "id");
     name := default PNone (d !! "name");
     api := api;
     extras := base.delete "id" (base.delete "name" d);
     zone_cache := None |}.

(** The dictionary the comprehension arrives at when the instances are
    allocated from address [base] on. *)
Fixpoint zones_dict (base : loc) (zs : list (gmap string pyval))
    (acc : list (pyval * loc)) : list (pyval * loc) :=
  match zs with
  | [] => acc
  | d :: rest =>
      zones_dict (S base) rest (dict_set acc (default PNone (d !! "id")) base)
  end.

Definition int_keys (m : list (pyval * loc)) : Prop :=
  Forall (λ p, ∃ i, p.1 = PInt i) m.

(** The zone stored at [l], if there is one. *)
Definition zone_at (l : loc) (s : state) : option Zone :=
  match heap s !! l with
  | Some (OZone z) => Some z
  | _ => None
  end.

(** The state [d] seconds later, nothing else having happened. *)
Definition elapse (d : Z) (s : state) : state :=
  {| now := now s + d; pending := pending s; sent := sent s; heap := heap s |}.

(** What a read of [key] on the instance at [self] would find alive. *)
Definition cached_value (key : string) (self : loc) (s : state)
  : option value :=
  match heap s !! self with
  | Some o =>
      match cache_of o with
      | Some c =>
          match assoc key (links c) with
          | Some e => if live c (now s) e then Some (stored e) else None
          | None => None
          end
      | None => None
      end
  | None => None
  end.

(** The state once the instance at [self] has its cache attached. *)
Definition attach (ms tl : Z) (self : loc) (s : state) : state :=
  match heap s !! self with
  | Some o =>
      match cache_of o with
      | None => put_cache self o {| maxsize := ms; ttl := tl; links := [] |} s
      | Some _ => s
      end
  | None => s
  end.

(** The cache of [o], if it has one, can hold an entry. *)
Definition usable (o : obj) : Prop :=
  ∀ c, cache_of o = Some c → 1 ≤ maxsize c.

(** The [ttl] that governs the instance [o] under an accessor declared
    with [tl]: the one of the cache it already has, if any. *)
Definition ttl_of (tl : Z) (o : obj) : Z :=
  match cache_of o with
  | Some c => ttl c
  | None => tl
  end.

(** The request an authenticated call of the home [h] issues. *)
Definition api_request (h : Home) (cmd : list fpart) (method : string)
    (json : option pyval) (data : option (gmap string pyval)) : request :=
  {| method := method; target := urljoin API_URL cmd; json := json;
     data := data; headers := Some (access_headers h) |}.

(** The home [h] after a refresh answered with the access token [a] and
    the refresh token [r]. *)
Definition refreshed (a : string) (r : pyval) (h : Home) : Home :=
  {| username := username h; secret := secret h; home_id := home_id h;
     access_token := PStr a; refresh_token := r;
     access_headers := <["Authorization" := "Bearer " +:+ a]> (access_headers h);
     temperature_unit := temperature_unit h; home_cache := home_cache h |}.

(** The three requests of [login]. *)
Definition login_requests (username password secret a : string)
  : list request :=
  [ {| method := "POST"; target := Url "https://auth.tado.com/oauth/token";
       json := None;
       data := Some {[ "client_id" := PStr "tado-web-app";
                       "client_secret" := PStr secret;
                       "grant_type" := PStr "password";
                       "password" := PStr password;
                       "scope" := PStr "home.user";
                       "username" := PStr username ]};
       headers := None |};
    {| method := "GET"; target := Url "https://my.tado.com/api/v1/me";
       json := None; data := None;
       headers := Some (<["Authorization" := "Bearer " +:+ a]> HEADERS) |};
    {| method := "GET"; target := urljoin API_URL [Lit "me"];
       json := None; data := None;
       headers := Some (<["Authorization" := "Bearer " +:+ a]> HEADERS) |} ].

(** A Python number: [bool], [int] or [float]. *)
Definition is_number (v : pyval) : bool :=
  match v with
  | PBool _ | PInt _ | PFloat _ => true
  | _ => false
  end.

(** The body of the answer the server gives next, if it is JSON. *)
Definition next_body (s : state) : option pyval :=
  match pending s with
  | x :: _ =>
      match answer x with
      | Resp _ b => b
      | ConnFail => None
      end
  | [] => None
  end.

(** The getters of [Home] that are not cached, for the zone [zone],
    each with the command it sends. *)
Definition home_getters (zone : pyval)
  : list ((loc → M pyval) * (Home → list fpart)) :=
  [ (Home.presence,
     λ h, [Lit "homes/"; Fmt (home_id h); Lit "/presence"]);
    (Home.home_state,
     λ h, [Lit "homes/"; Fmt (home_id h); Lit "/state"]);
    (λ self, Home.get_capabilities self zone,
     λ h, [Lit "homes/"; Fmt (home_id h); Lit "/zones/"; Fmt zone;
           Lit "/capabilities"]);
    (λ self, Home.get_schedule self zone,
     λ h, [Lit "homes/"; Fmt (home_id h); Lit "/zones/"; Fmt zone;
           Lit "/schedule/activeTimetable"]);
    (λ self, Home.get_state self zone,
     λ h, [Lit "homes/"; Fmt (home_id h); Lit "/zones/"; Fmt zone;
           Lit "/state"]) ].

(** The cached accessors of [Home] that hand the response on, each
    with its key, the function it decorates and the command it sends. *)
Definition home_accessors
  : list (string * (loc → M value) * (Home → list fpart)) :=
  [ ("devices", Home.devices_prop,
     λ h, [Lit "homes/"; Fmt (home_id h); Lit "/devices"]);
    ("home", Home.home_prop, λ h, [Lit "homes/"; Fmt (home_id h)]);
    ("installations", Home.installations_prop,
     λ h, [Lit "homes/"; Fmt (home_id h); Lit "/installations"]);
    ("invitations", Home.invitations_prop,
     λ h, [Lit "homes/"; Fmt (home_id h); Lit "/invitations"]);
    ("me", Home.me_prop, λ h, [Lit "me"]);
    ("mobile_devices", Home.mobile_devices_prop,
     λ h, [Lit "homes/"; Fmt (home_id h); Lit "/mobileDevices"]);
    ("users", Home.users_prop,
     λ h, [Lit "homes/"; Fmt (home_id h); Lit "/users"]);
    ("weather", Home.weather_prop,
     λ h, [Lit "homes/"; Fmt (home_id h); Lit "/weather"]) ].

(** The operations that write to the server. *)
Definition writes (home zone : loc) (z t term enabled to : pyval)
  : list (M pyval) :=
  [ Home.set_temperature home z t term;
    Home.set_early_start home z enabled;
    Home.set_presence home to;
    Home.end_manual_control home z;
    Zone.set_temperature zone t term;
    Zone.end_manual_control zone ].

(** The cached accessors whose compute is a plain request. *)
Definition plain_accessors : list (string * (loc → M value)) :=
  [ ("devices", Home.devices_prop); ("home", Home.home_prop);
    ("installations", Home.installations_prop);
    ("invitations", Home.invitations_prop); ("me", Home.me_prop);
    ("mobile_devices", Home.mobile_devices_prop);
    ("users", Home.users_prop); ("weather", Home.weather_prop);
    ("schedule", Zone.schedule_prop);
    ("early_start", Zone.early_start_prop);
    ("state", Zone.state_prop);
    ("capabilities", Zone.capabilities_prop) ].

(** The request by which [login] asks for the tokens. *)
Definition token_request (username password secret : string) : request :=
  {| method := "POST"; target := Url "https://auth.tado.com/oauth/token";
     json := None;
     data := Some {[ "client_id" := PStr "tado-web-app";
                     "client_secret" := PStr secret;
                     "grant_type" := PStr "password";
                     "password" := PStr password;
                     "scope" := PStr "home.user";
                     "username" := PStr username ]};
     headers := None |}.

(** The access token that the next answer of the server hands to a
    refresh: the [access_token] field of its body, when there is an
    answer, its status is below 400 and its body is a JSON object with
    that field. *)
Definition granted_token (s : state) : option pyval :=
  match pending s with
  | x :: _ =>
      match answer x with
      | Resp st b => if 400 <=? st then None else token_field b "access_token"
      | ConnFail => None
      end
  | [] => None
  end.

(** A unit that is one key to glom: it has no dot, and it is not one of
    the wildcard segments [*] and [**]. *)
Definition plain_key (unit : string) : bool :=
  forallb (λ c, negb (Ascii.eqb c "."%char)) (list_ascii_of_string unit)
  && negb (String.eqb unit "*") && negb (String.eqb unit "**").

(** ** Sample data

    The scenarios of the specification, used to exercise the results
    below on concrete inputs. *)

(** 20.5 as a binary64 float. *)
Definition f20_5 : spec_float :=
  S754_finite false 5770237022568448 (-48).

Definition sample_home : Home :=
  {| username := "user"; secret := "secret"; home_id := PInt 42;
     access_token := PStr "A1"; refresh_token := PStr "R1";
     access_headers := <["Authorization" := "Bearer A1"]> HEADERS;
     temperature_unit := "celsius"; home_cache := None |}.

Definition ok_json (v : pyval) : exchange :=
  {| elapsed := 1; answer := Resp 200 (Some v) |}.

(** A logged-in home and a server with the given answers ahead. *)
Definition sample_state (answers : list exchange) : state :=
  {| now := 100; pending := answers; sent := []; heap := [OHome sample_home] |}.

(** Nothing logged in yet. *)
Definition fresh_state (answers : list exchange) : state :=
  {| now := 0; pending := answers; sent := []; heap := [] |}.

Definition status_only (st : Z) : exchange :=
  {| elapsed := 1; answer := Resp st None |}.

Definition token_reply : pyval :=
  PDict {[ "access_token" := PStr "A1"; "refresh_token" := PStr "R1" ]}.

Definition me_reply : pyval :=
  PDict {[ "homes" := PList [PDict {[ "id" := PInt 42 ]}] ]}.

(** The three answers a successful [login] consumes. *)
Definition login_answers : list exchange :=
  [ok_json token_reply; status_only 200; ok_json me_reply].

(** A refresh response that carries a new access token and no refresh
    token. *)
Definition partial_reply : pyval := PDict {[ "access_token" := PStr "A2" ]}.

(** [login], then a [refresh_auth] answered by [partial_reply]. *)
Definition state_after_login : state :=
  (login "user" "pass" "secret"
     (fresh_state (login_answers ++ [ok_json partial_reply]))).2.

Definition state_after_refresh : state :=
  (Home.refresh_auth 0%nat state_after_login).2.

(** A home whose cache holds the device list stored at time [t]. *)
Definition cached_home (t : Z) : Home :=
  {| username := "user"; secret := "secret"; home_id := PInt 42;
     access_token := PStr "A1"; refresh_token := PStr "R1";
     access_headers := <["Authorization" := "Bearer A1"]> HEADERS;
     temperature_unit := "celsius";
     home_cache :=
       Some {| maxsize := 16; ttl := 60;
               links := [("devices",
                          {| stored := VJson (PList []); inserted_at := t |})] |} |}.

Definition cached_state (t : Z) (answers : list exchange) : state :=
  {| now := 100; pending := answers; sent := [];
     heap := [OHome (cached_home t)] |}.

(** Zone objects of a listing. *)
Definition living : gmap string pyval :=
  {[ "id" := PInt 1; "name" := PStr "Living" ]}.

Definition zone_a : gmap string pyval :=
  {[ "id" := PInt 1; "name" := PStr "A" ]}.

Definition zone_b : gmap string pyval :=
  {[ "id" := PInt 1; "name" := PStr "B" ]}.

(** A zone state with an inside temperature of 20.5 degrees Celsius. *)
Definition sample_zone_state : pyval :=
  PDict {[ "sensorDataPoints" :=
             PDict {[ "insideTemperature" :=
                        PDict {[ "celsius" := PFloat f20_5 ]} ]} ]}.

(** A zone of the home at address 0 that cached a state at time [90]. *)
Definition zone_with_state (st : pyval) : Zone :=
  {| zone_id := PInt 1; name := PStr "Living"; api := 0%nat; extras := ∅;
     zone_cache :=
       Some {| maxsize := 16; ttl := 60;
               links := [("state",
                          {| stored := VJson st; inserted_at := 90 |})] |} |}.

Definition home_with_unit (unit : string) : Home :=
  {| username := "user"; secret := "secret"; home_id := PInt 42;
     access_token := PStr "A1"; refresh_token := PStr "R1";
     access_headers := <["Authorization" := "Bearer A1"]> HEADERS;
     temperature_unit := unit; home_cache := None |}.

Definition zone_state (unit : string) (st : pyval) : state :=
  {| now := 100; pending := []; sent := [];
     heap := [OHome (home_with_unit unit); OZone (zone_with_state st)] |}.

(** The state after a first reading of the device list, the server
    having one more device list ahead. *)
Definition state_after_devices : state :=
  (Home.devices 0%nat
     (sample_state [ok_json (PList [PStr "GW03"]); ok_json (PList [])])).2.

(** A refresh response with both tokens. *)
Definition refresh_reply : pyval :=
  PDict {[ "access_token" := PStr "A2"; "refresh_token" := PStr "R2" ]}.

(** The logged-in home after a refresh answered by [refresh_reply]. *)
Definition refreshed_state : state :=
  (Home.refresh_auth 0%nat (sample_state [ok_json refresh_reply])).2.

(** A device list. *)
Definition device_list : pyval := PList [PStr "GW03"].

(** A zone of the home at address 0 that has read nothing yet. *)
Definition plain_zone : Zone :=
  {| zone_id := PInt 1; name := PStr "Living"; api := 0%nat; extras := ∅;
     zone_cache := None |}.

(** That zone beside its home, with the answers the server will give. *)
Definition plain_zone_state (answers : list exchange) : state :=
  {| now := 100; pending := answers; sent := [];
     heap := [OHome sample_home; OZone plain_zone] |}.

(** A zone object without a name. *)
Definition nameless : gmap string pyval := {[ "id" := PInt 2 ]}.

(** A zone state whose inside temperature stands under the key [a.b]. *)
Definition dotted_zone_state : pyval :=
  PDict {[ "sensorDataPoints" :=
             PDict {[ "insideTemperature" :=
                        PDict {[ "a.b" := PInt 1 ]} ]} ]}.

(** A refresh response whose access token is not a string. *)
Definition numeric_reply : pyval :=
  PDict {[ "access_token" := PInt 7; "refresh_token" := PStr "R2" ]}.

(** ** Properties *)

(** *** Running a computation *)

Lemma bind_ok {A B : Type} (m : M A) (f : A → M B) s a s' :
  m s = (Ok a, s') → (m ≫= f) s = f a s'.
Proof. intros E. unfold mbind, M_bind. now rewrite E. Qed.

Lemma bind_raise {A B : Type} (m : M A) (f : A → M B) s e s' :
  m s = (Raise e, s') → (m ≫= f) s = (Raise e, s').
Proof. intros E. unfold mbind, M_bind. now rewrite E. Qed.

Lemma load_home_ok self s h :
  heap s !! self = Some (OHome h) → load_home self s = (Ok h, s).
Proof.
  intros E. unfold load_home, load, mbind, M_bind. now rewrite E.
Qed.

Lemma load_zone_ok self s z :
  heap s !! self = Some (OZone z) → load_zone self s = (Ok z, s).
Proof.
  intros E. unfold load_zone, load, mbind, M_bind. now rewrite E.
Qed.

(** Whatever the server does, [send] records the request and leaves
    the heap alone. *)
Lemma send_sent r s :
  sent (send r s).2 = sent s ++ [r] ∧ heap (send r s).2 = heap s.
Proof.
  unfold send. destruct (pending s) as [|x rest]; [done|].
  destruct (answer x); done.
Qed.

Lemma api_call_sent self cmd method json data s h :
  heap s !! self = Some (OHome h) →
  sent (Home._api_call self cmd method json data s).2
  = sent s ++ [ {| method := method; target := urljoin API_URL cmd;
                   json := json; data := data;
                   headers := Some (access_headers h) |} ].
Proof.
  intros E. unfold Home._api_call.
  rewrite (bind_ok _ _ _ _ _ (load_home_ok _ _ _ E)).
  set (r := {| method := method |}).
  pose proof (send_sent r s) as [Hs _].
  unfold mbind, M_bind.
  destruct (send r s) as [[resp|e] s1]; simpl in *; [|done].
  unfold raise_for_status.
  destruct (400 <=? status_of resp); simpl; [done|].
  unfold response_json. destruct (body_of resp); done.
Qed.

(** *** The payload of set_temperature *)

Lemma cmp_lt_ge v n :
  py_ge v n = Ok true → py_lt v n = Ok false.
Proof.
  unfold py_ge, py_lt.
  destruct (cmp_int v n) as [[[]|]|]; congruence.
Qed.

Lemma set_temperature_sent self zone temperature termination s h p :
  heap s !! self = Some (OHome h) →
  Home.payload temperature termination = Ok p →
  sent (Home.set_temperature self zone temperature termination s).2
  = sent s ++ [ {| method := "PUT";
                   target := urljoin API_URL
                     [Lit "homes/"; Fmt (home_id h); Lit "/zones/"; Fmt zone;
                      Lit "/overlay"];
                   json := Some p; data := None;
                   headers := Some (access_headers h) |} ].
Proof.
  intros E Hp. unfold Home.set_temperature.
  rewrite (bind_ok _ _ s p s) by (unfold lift; now rewrite Hp).
  rewrite (bind_ok _ _ _ _ _ (load_home_ok _ _ _ E)).
  unfold Home.put. now apply api_call_sent.
Qed.

(** C4.  A temperature below 5 gives the setting
    [{type: HEATING, power: OFF}], which has no temperature entry; a
    temperature of 5 or more gives
    [{type: HEATING, power: ON, temperature: {celsius: temperature}}];
    either way the setting is the [setting] entry of the payload that
    [set_temperature] puts to the overlay of the zone, whatever the
    zone and the termination are. *)
Theorem set_temperature_setting (temperature : pyval) :
  let off : gmap string pyval :=
    {[ "type" := PStr "HEATING"; "power" := PStr "OFF" ]} in
  let on : gmap string pyval :=
    {[ "type" := PStr "HEATING"; "power" := PStr "ON";
       "temperature" := PDict {[ "celsius" := temperature ]} ]} in
  (py_lt temperature 5 = Ok true →
     Home.get_setting_dict temperature = Ok (PDict off)
     ∧ off !! "temperature" = None)
  ∧ (py_ge temperature 5 = Ok true →
     Home.get_setting_dict temperature = Ok (PDict on))
  ∧ (∀ setting, Home.get_setting_dict temperature = Ok setting →
     ∀ self zone termination s h,
       heap s !! self = Some (OHome h) →
       ∃ p r,
         Home.payload temperature termination = Ok p
         ∧ getitem p "setting" = Ok setting
         ∧ last (sent (Home.set_temperature self zone temperature
                         termination s).2) = Some r
         ∧ method r = "PUT" ∧ json r = Some p).
Proof.
  intros off on. split; [|split].
  - intros H. split; [|reflexivity].
    unfold Home.get_setting_dict. now rewrite H.
  - intros H. unfold Home.get_setting_dict. now rewrite (cmp_lt_ge _ _ H).
  - intros setting Hs self zone termination s h E.
    eexists _, _. unfold Home.payload at 1. rewrite Hs.
    split; [reflexivity|]. split; [reflexivity|].
    erewrite set_temperature_sent; [|exact E|unfold Home.payload; now rewrite Hs].
    rewrite last_snoc. done.
Qed.

Lemma set_temperature_setting_witness :
  Home.get_setting_dict (PInt 3)
  = Ok (PDict {[ "type" := PStr "HEATING"; "power" := PStr "OFF" ]})
  ∧ Home.get_setting_dict (PFloat f20_5)
    = Ok (PDict {[ "type" := PStr "HEATING"; "power" := PStr "ON";
                   "temperature" := PDict {[ "celsius" := PFloat f20_5 ]} ]})
  ∧ ∃ p r,
      Home.payload (PInt 3) (PStr "AUTO") = Ok p
      ∧ getitem p "setting"
        = Ok (PDict {[ "type" := PStr "HEATING"; "power" := PStr "OFF" ]})
      ∧ last (sent (Home.set_temperature 0%nat (PInt 1) (PInt 3) (PStr "AUTO")
                      (sample_state [])).2) = Some r
      ∧ method r = "PUT" ∧ json r = Some p.
Proof.
  split; [|split].
  - apply (set_temperature_setting (PInt 3)). reflexivity.
  - apply (set_temperature_setting (PFloat f20_5)). reflexivity.
  - apply (set_temperature_setting (PInt 3)) with (h := sample_home);
      reflexivity.
Defined.

(** *** Termination *)

Lemma py_eq_str_false v s : v ≠ PStr s → py_eq_str v s = false.
Proof.
  destruct v; simpl; try reflexivity.
  intros Hne. apply String.eqb_neq. congruence.
Qed.

(** C5.  ["MANUAL"] gives the termination [{type: MANUAL}], ["AUTO"]
    gives [{type: TADO_MODE}], and every other value [v] gives
    [{type: TIMER, durationInSeconds: v}], the value being passed on as
    it is; in particular an integer [n] gives
    [{type: TIMER, durationInSeconds: n}].  The termination is the
    [termination] entry of the payload of [set_temperature]. *)
Theorem set_temperature_termination :
  Home.get_termination_dict (PStr "MANUAL") = PDict {[ "type" := PStr "MANUAL" ]}
  ∧ Home.get_termination_dict (PStr "AUTO")
    = PDict {[ "type" := PStr "TADO_MODE" ]}
  ∧ (∀ v : pyval, v ≠ PStr "MANUAL" → v ≠ PStr "AUTO" →
     Home.get_termination_dict v
     = PDict {[ "type" := PStr "TIMER"; "durationInSeconds" := v ]})
  ∧ (∀ n : Z,
     Home.get_termination_dict (PInt n)
     = PDict {[ "type" := PStr "TIMER"; "durationInSeconds" := PInt n ]})
  ∧ (∀ temperature termination p,
     Home.payload temperature termination = Ok p →
     getitem p "termination" = Ok (Home.get_termination_dict termination)).
Proof.
  split; [reflexivity|]. split; [reflexivity|]. split; [|split].
  - intros v Hm Ha. unfold Home.get_termination_dict.
    now rewrite (py_eq_str_false _ _ Hm), (py_eq_str_false _ _ Ha).
  - intros n. reflexivity.
  - intros temperature termination p. unfold Home.payload.
    destruct (Home.get_setting_dict temperature); [|discriminate].
    intros [= <-]. reflexivity.
Qed.

Lemma set_temperature_termination_witness :
  Home.get_termination_dict (PStr "manual")
  = PDict {[ "type" := PStr "TIMER"; "durationInSeconds" := PStr "manual" ]}
  ∧ getitem (PDict {[ "setting" := PDict {[ "type" := PStr "HEATING";
                                             "power" := PStr "OFF" ]};
                      "termination" := PDict {[ "type" := PStr "TIMER";
                                                 "durationInSeconds" := PInt 900 ]} ]})
      "termination"
    = Ok (Home.get_termination_dict (PInt 900)).
Proof.
  split.
  - apply set_temperature_termination; discriminate.
  - apply (proj2 (proj2 (proj2 (proj2 set_temperature_termination)))
             (PInt 3) (PInt 900)).
    reflexivity.
Defined.

(** *** Exchanges with the server *)

Lemma send_ok_inv r s resp s1 :
  send r s = (Ok resp, s1) →
  ∃ x rest, pending s = x :: rest
    ∧ answer x = Resp (status_of resp) (body_of resp)
    ∧ s1 = after x rest r s.
Proof.
  unfold send. destruct (pending s) as [|x rest]; [discriminate|].
  destruct (answer x) eqn:E; [discriminate|].
  intros [= <- <-]. exists x, rest. simpl. auto.
Qed.

Lemma send_ok r s x rest st b :
  pending s = x :: rest → answer x = Resp st b →
  send r s = (Ok {| status_of := st; body_of := b |}, after x rest r s).
Proof. intros E1 E2. unfold send. now rewrite E1, E2. Qed.

(** One step of a run known to return: the next computation returned
    [a] in the state [s1]. *)
Tactic Notation "step" hyp(H) "as" ident(a) ident(s1) ident(E) :=
  match type of H with
  | (let (_, _) := ?m ?s in _) = _ =>
      destruct (m s) as [[a|?] s1] eqn:E; [|discriminate H]
  end.

Lemma lift_bind {A B : Type} (r : result A) (f : A → M B) s :
  (lift r ≫= f) s = match r with Ok a => f a s | Raise e => (Raise e, s) end.
Proof. unfold lift, mbind, M_bind. now destruct r. Qed.

Lemma api_call_ok self cmd method json data s h x rest st b :
  heap s !! self = Some (OHome h) →
  pending s = x :: rest → answer x = Resp st (Some b) → st < 400 →
  Home._api_call self cmd method json data s
  = (Ok b, after x rest {| method := method; target := urljoin API_URL cmd;
                           json := json; data := data;
                           headers := Some (access_headers h) |} s).
Proof.
  intros E P A Hst. unfold Home._api_call.
  rewrite (bind_ok _ _ _ _ _ (load_home_ok _ _ _ E)).
  erewrite bind_ok by (apply send_ok; eassumption).
  unfold raise_for_status. simpl status_of.
  destruct (400 <=? st) eqn:E4; [apply Z.leb_le in E4; lia|].
  reflexivity.
Qed.

(** *** get_early_start *)

(** C7, as amended.  [get_early_start] does not hand the response on as
    it is: from a response below 400 with the JSON body [b] it returns
    [b["enabled"]], the value of that one field, and raises [KeyError]
    when the field is missing. *)
Theorem get_early_start_enabled self zone s h x rest st b :
  heap s !! self = Some (OHome h) →
  pending s = x :: rest → answer x = Resp st (Some b) → st < 400 →
  (Home.get_early_start self zone s).1 = getitem b "enabled".
Proof.
  intros E P A Hst. unfold Home.get_early_start.
  rewrite (bind_ok _ _ _ _ _ (load_home_ok _ _ _ E)).
  unfold Home.get.
  rewrite (bind_ok _ _ _ _ _ (api_call_ok _ _ _ _ _ _ _ _ _ _ _ E P A Hst)).
  reflexivity.
Qed.

Lemma get_early_start_enabled_witness :
  (Home.get_early_start 0%nat (PInt 1)
     (sample_state [ok_json (PDict {[ "enabled" := PBool false ]})])).1
  = Ok (PBool false).
Proof.
  change (Ok (PBool false))
    with (getitem (PDict {[ "enabled" := PBool false ]}) "enabled").
  apply (get_early_start_enabled 0%nat (PInt 1) _ sample_home
           (ok_json (PDict {[ "enabled" := PBool false ]})) [] 200);
    [reflexivity|reflexivity|reflexivity|lia].
Defined.

(** C7, as stated, fails: the response [{enabled: true}] comes back as
    [True], not as the response. *)
Lemma get_early_start_not_verbatim :
  (Home.get_early_start 0%nat (PInt 1)
     (sample_state [ok_json (PDict {[ "enabled" := PBool true ]})])).1
  = Ok (PBool true)
  ∧ PBool true ≠ PDict {[ "enabled" := PBool true ]}.
Proof. split; [reflexivity|discriminate]. Qed.

(** *** login *)

Lemma login_inv u p sec s l s' :
  login u p sec s = (Ok l, s') →
  ∃ x1 x2 x3 rest st1 decoded a r st2 b2 st3 me homes first hid,
    pending s = x1 :: x2 :: x3 :: rest
    ∧ answer x1 = Resp st1 (Some decoded)
    ∧ getitem decoded "access_token" = Ok (PStr a)
    ∧ getitem decoded "refresh_token" = Ok r
    ∧ answer x2 = Resp st2 b2
    ∧ answer x3 = Resp st3 (Some me)
    ∧ getitem me "homes" = Ok homes
    ∧ getindex homes 0 = Ok first
    ∧ getitem first "id" = Ok hid
    ∧ l = length (heap s)
    ∧ heap s' = heap s ++
        [OHome {| username := u; secret := sec; home_id := hid;
                  access_token := PStr a; refresh_token := r;
                  access_headers := <["Authorization" := "Bearer " +:+ a]> HEADERS;
                  temperature_unit := "celsius"; home_cache := None |}]
    ∧ pending s' = rest.
Proof.
  unfold login. intros H. unfold mbind, M_bind in H.
  step H as resp1 s1 E. apply send_ok_inv in E as (x1 & rest1 & P1 & A1 & ->).
  unfold response_json, lift at 1 2 3 4 in H.
  destruct resp1 as [st1 [decoded|]]; simpl in H; [|discriminate].
  destruct (getitem decoded "access_token") as [a|] eqn:Ea; [|discriminate].
  destruct (getitem decoded "refresh_token") as [r|] eqn:Er; [|discriminate].
  destruct a as [| | | |a| |]; simpl in H; try discriminate.
  step H as resp2 s2 E. apply send_ok_inv in E as (x2 & rest2 & P2 & A2 & ->).
  step H as resp3 s3 E. apply send_ok_inv in E as (x3 & rest3 & P3 & A3 & ->).
  destruct resp3 as [st3 [me|]]; simpl in H; [|discriminate].
  unfold lift in H.
  destruct (getitem me "homes") as [homes|] eqn:Eh; [|discriminate].
  destruct (getindex homes 0) as [first|] eqn:Ef; [|discriminate].
  destruct (getitem first "id") as [hid|] eqn:Ei; [|discriminate].
  unfold new in H. injection H as <- <-.
  simpl in *. subst.
  exists x1, x2, x3, rest3, st1, decoded, a, r, (status_of resp2), (body_of resp2), st3, me, homes, first, hid.
  repeat split; auto.
Qed.

Lemma homes_first homes first hid :
  getindex homes 0 = Ok first → getitem first "id" = Ok hid →
  ∃ others, homes = PList (first :: others).
Proof.
  destruct homes as [| | | |t|l|d]; simpl; try discriminate.
  - destruct (String.get 0 t); [|discriminate]. intros [= <-]. discriminate.
  - destruct l as [|y l]; simpl; [discriminate|]. intros [= <-]. eauto.
Qed.

(** The scenario of the specification: the home is 42 and the header is
    [Bearer A1]. *)
Example login_scenario :
  (login "user" "pass" "secret" (fresh_state login_answers)).1 = Ok 0%nat
  ∧ heap (login "user" "pass" "secret" (fresh_state login_answers)).2
    = [OHome sample_home].
Proof. split; vm_compute; reflexivity. Qed.

(** C10.  When [login] returns, the profile it fetched had a [homes]
    list with a first element, and the home id of the session is the
    [id] of that element; when the [homes] list is empty, [login] ends
    in [IndexError] and returns nothing. *)
Theorem login_first_home u p sec s :
  (∀ l s',
     login u p sec s = (Ok l, s') →
     ∃ x1 x2 x3 rest st me first others h,
       pending s = x1 :: x2 :: x3 :: rest
       ∧ answer x3 = Resp st (Some me)
       ∧ getitem me "homes" = Ok (PList (first :: others))
       ∧ heap s' !! l = Some (OHome h)
       ∧ getitem first "id" = Ok (home_id h))
  ∧ (∀ x1 x2 x3 rest st1 decoded a r st2 b2 st3 me,
       pending s = x1 :: x2 :: x3 :: rest →
       answer x1 = Resp st1 (Some decoded) →
       getitem decoded "access_token" = Ok (PStr a) →
       getitem decoded "refresh_token" = Ok r →
       answer x2 = Resp st2 b2 →
       answer x3 = Resp st3 (Some me) →
       getitem me "homes" = Ok (PList []) →
       (login u p sec s).1 = Raise IndexError).
Proof.
  split.
  - intros l s' H.
    apply login_inv in H
      as (x1 & x2 & x3 & rest & st1 & decoded & a & r & st2 & b2 & st3 & me
          & homes & first & hid & P & _ & _ & _ & _ & A3 & Hh & Hf & Hi & -> & Hs & _).
    destruct (homes_first _ _ _ Hf Hi) as [others ->].
    eexists x1, x2, x3, rest, st3, me, first, others, _.
    split; [exact P|]. split; [exact A3|]. split; [exact Hh|].
    rewrite Hs. split; [apply list_lookup_middle; reflexivity|exact Hi].
  - intros x1 x2 x3 rest st1 decoded a r st2 b2 st3 me P A1 Ea Er A2 A3 Hh.
    unfold login.
    erewrite bind_ok by (apply send_ok; eassumption).
    unfold response_json at 1. simpl body_of. cbv iota.
    rewrite (bind_ok _ _ _ decoded _ eq_refl).
    rewrite lift_bind, Ea, lift_bind, Er, lift_bind, lift_bind.
    simpl str_add. cbv iota.
    erewrite bind_ok by (apply send_ok; [reflexivity|eassumption]).
    erewrite bind_ok by (apply send_ok; [reflexivity|eassumption]).
    simpl body_of. cbv iota.
    rewrite (bind_ok _ _ _ me _ eq_refl).
    rewrite lift_bind, Hh, lift_bind. reflexivity.
Qed.

Lemma login_first_home_witness :
  (∃ first others h,
     getitem me_reply "homes" = Ok (PList (first :: others))
     ∧ heap (login "user" "pass" "secret" (fresh_state login_answers)).2 !! 0%nat
       = Some (OHome h)
     ∧ getitem first "id" = Ok (home_id h))
  ∧ (login "user" "pass" "secret"
       (fresh_state [ok_json token_reply; status_only 200;
                     ok_json (PDict {[ "homes" := PList [] ]})])).1
    = Raise IndexError.
Proof.
  split.
  - destruct (proj1 (login_first_home "user" "pass" "secret"
                       (fresh_state login_answers)) 0%nat
                (login "user" "pass" "secret" (fresh_state login_answers)).2
                eq_refl)
      as (x1 & x2 & x3 & rest & st & me & first & others & h
          & P & A & Hh & Hl & Hi).
    injection P as <- <- <- <-. injection A as <- <-.
    exists first, others, h. auto.
  - apply (proj2 (login_first_home "user" "pass" "secret" _)
             (ok_json token_reply) (status_only 200)
             (ok_json (PDict {[ "homes" := PList [] ]})) []
             200 token_reply "A1" (PStr "R1") 200 None 200
             (PDict {[ "homes" := PList [] ]}));
      reflexivity.
Defined.

(** C2, as amended.  When the token endpoint answers with a status in
    the 2xx range and a body that does not hold both [access_token] and
    [refresh_token], [login] fails and returns no session: no [Home] is
    built, and the token request is all it has sent.  When the body is
    JSON, the failure is the error of the lookup: [KeyError] naming
    [access_token] when the body is an object without it, also when
    [refresh_token] is missing too; [KeyError] naming [refresh_token]
    when only that one is missing; [TypeError] when the body is a JSON
    value other than an object.  What [login] does under a status
    outside 2xx is not part of this statement. *)
Theorem login_missing_token u p sec s x rest st b :
  pending s = x :: rest → answer x = Resp st b →
  200 ≤ st < 300 →
  token_field b "access_token" = None
  ∨ token_field b "refresh_token" = None →
  (∃ e, (login u p sec s).1 = Raise e)
  ∧ heap (login u p sec s).2 = heap s
  ∧ sent (login u p sec s).2 = sent s ++ [token_request u p sec]
  ∧ (∀ decoded,
       b = Some decoded →
       (login u p sec s).1
       = Raise (match decoded with
                | PDict d =>
                    match d !! "access_token" with
                    | None => KeyError (PStr "access_token")
                    | Some _ => KeyError (PStr "refresh_token")
                    end
                | _ => TypeError
                end)).
Proof.
  intros P A _ Hc.
  assert (∃ e, login u p sec s
               = (Raise e, after x rest (token_request u p sec) s)
               ∧ ∀ decoded,
                   b = Some decoded →
                   e = match decoded with
                       | PDict d =>
                           match d !! "access_token" with
                           | None => KeyError (PStr "access_token")
                           | Some _ => KeyError (PStr "refresh_token")
                           end
                       | _ => TypeError
                       end) as (e & -> & He).
  { unfold login. fold (token_request u p sec).
    rewrite (bind_ok _ _ _ _ _ (send_ok _ _ _ _ _ _ P A)).
    unfold response_json. simpl body_of.
    destruct b as [decoded|];
      [|eexists; split; [reflexivity|discriminate]].
    rewrite (bind_ok _ _ _ decoded _ eq_refl).
    rewrite lift_bind.
    destruct decoded as [| | | | | |d]; simpl getitem;
      try (eexists; split; [reflexivity|now intros ? [= <-]]).
    simpl in Hc.
    destruct (d !! "access_token") as [a|] eqn:Ea.
    - destruct Hc as [Hc|Hc]; [discriminate|].
      rewrite lift_bind. simpl getitem. rewrite Hc.
      eexists; split; [reflexivity|]. intros ? [= <-]. now rewrite Ea.
    - eexists; split; [reflexivity|]. intros ? [= <-]. now rewrite Ea. }
  split; [eauto|]. split; [reflexivity|]. split; [reflexivity|].
  intros decoded Hb. simpl. f_equal. now apply He.
Qed.

Lemma login_missing_token_witness :
  (login "user" "pass" "secret" (fresh_state [ok_json (PDict ∅)])).1
  = Raise (KeyError (PStr "access_token"))
  ∧ (login "user" "pass" "secret"
       (fresh_state [ok_json (PDict {[ "access_token" := PStr "A1" ]})])).1
    = Raise (KeyError (PStr "refresh_token"))
  ∧ (login "user" "pass" "secret" (fresh_state [ok_json (PList [])])).1
    = Raise TypeError
  ∧ heap (login "user" "pass" "secret" (fresh_state [status_only 200])).2
    = [].
Proof.
  assert (200 ≤ 200 < 300) as H2 by lia.
  split; [|split; [|split]].
  - exact (proj2 (proj2 (proj2
             (login_missing_token "user" "pass" "secret"
                (fresh_state [ok_json (PDict ∅)]) (ok_json (PDict ∅)) []
                200 (Some (PDict ∅)) eq_refl eq_refl H2 (or_introl eq_refl))))
             (PDict ∅) eq_refl).
  - exact (proj2 (proj2 (proj2
             (login_missing_token "user" "pass" "secret"
                (fresh_state
                   [ok_json (PDict {[ "access_token" := PStr "A1" ]})])
                (ok_json (PDict {[ "access_token" := PStr "A1" ]})) []
                200 (Some (PDict {[ "access_token" := PStr "A1" ]}))
                eq_refl eq_refl H2 (or_intror eq_refl))))
             (PDict {[ "access_token" := PStr "A1" ]}) eq_refl).
  - exact (proj2 (proj2 (proj2
             (login_missing_token "user" "pass" "secret"
                (fresh_state [ok_json (PList [])]) (ok_json (PList []))
                [] 200 (Some (PList [])) eq_refl eq_refl H2
                (or_introl eq_refl))))
             (PList []) eq_refl).
  - exact (proj1 (proj2
             (login_missing_token "user" "pass" "secret"
                (fresh_state [status_only 200]) (status_only 200) [] 200
                None eq_refl eq_refl H2 (or_introl eq_refl)))).
Defined.

(** C2, as stated, fails.  A token response of status 200 without the
    token fields ends [login] in [KeyError], the very key-lookup failure
    the claim sets the authentication error apart from, and so do
    rejected credentials; and a status outside 2xx does not by itself
    stop [login] from returning a session. *)
Lemma login_rejected_key_error :
  (login "user" "pass" "secret" (fresh_state [ok_json (PDict ∅)])).1
  = Raise (KeyError (PStr "access_token"))
  ∧ (login "user" "wrong" "secret"
       (fresh_state [ {| elapsed := 1;
                         answer := Resp 401 (Some (PDict {[ "error" := PStr "invalid_grant" ]})) |} ])).1
    = Raise (KeyError (PStr "access_token"))
  ∧ (login "user" "pass" "secret"
       (fresh_state [ {| elapsed := 1; answer := Resp 401 (Some token_reply) |};
                      status_only 200; ok_json me_reply ])).1
    = Ok 0%nat.
Proof. repeat split; reflexivity. Qed.

(** *** refresh_auth *)

Lemma setattr_run self f s h :
  heap s !! self = Some (OHome h) →
  Home.setattr self f s = (Ok tt, put_home self (f h) s).
Proof.
  intros E. unfold Home.setattr.
  now rewrite (bind_ok _ _ _ _ _ (load_home_ok _ _ _ E)).
Qed.

Lemma put_home_lookup self h0 h s :
  heap s !! self = Some (OHome h0) →
  heap (put_home self h s) !! self = Some (OHome h).
Proof.
  intros E. simpl. apply list_lookup_insert_eq. now apply lookup_lt_Some in E.
Qed.

Lemma put_home_twice self h1 h2 s :
  put_home self h2 (put_home self h1 s) = put_home self h2 s.
Proof. unfold put_home, set_heap. simpl. now rewrite list_insert_insert_eq. Qed.

(** What [refresh_auth] comes to, by the answer of the server. *)
Lemma refresh_auth_run self s h :
  heap s !! self = Some (OHome h) →
  Home.refresh_auth self s =
  match send (refresh_request h) s with
  | (Raise e, s1) => (Raise e, s1)
  | (Ok resp, s1) =>
      if 400 <=? status_of resp then (Raise (ClientResponseError (status_of resp)), s1)
      else
        match body_of resp with
        | None => (Raise ContentTypeError, s1)
        | Some response =>
            match getitem response "access_token" with
            | Raise e => (Raise e, s1)
            | Ok a =>
                let h1 := Home.set_access_token a h in
                match getitem response "refresh_token" with
                | Raise e => (Raise e, put_home self h1 s1)
                | Ok r =>
                    let h2 := Home.set_refresh_token r h1 in
                    match str_add "Bearer " a with
                    | Raise e => (Raise e, put_home self h2 s1)
                    | Ok bearer =>
                        (Ok tt, put_home self (Home.set_header "Authorization" bearer h2) s1)
                    end
                end
            end
        end
  end.
Proof.
  intros E. unfold Home.refresh_auth.
  rewrite (bind_ok _ _ _ _ _ (load_home_ok _ _ _ E)).
  fold (refresh_request h).
  pose proof (send_sent (refresh_request h) s) as [_ Hh].
  unfold mbind at 1, M_bind at 1.
  destruct (send (refresh_request h) s) as [[resp|e] s1]; [|reflexivity].
  simpl in Hh. rewrite <- Hh in E.
  unfold raise_for_status, mbind at 1, M_bind at 1.
  destruct (400 <=? status_of resp); [reflexivity|]. simpl.
  unfold response_json, mbind at 1, M_bind at 1.
  destruct (body_of resp) as [response|]; [|reflexivity]. simpl.
  rewrite lift_bind.
  destruct (getitem response "access_token") as [a|e]; [|reflexivity].
  rewrite (bind_ok _ _ _ _ _ (setattr_run _ _ _ _ E)).
  pose proof (put_home_lookup self h (Home.set_access_token a h) s1 E) as E1.
  rewrite lift_bind.
  destruct (getitem response "refresh_token") as [r|e]; [|reflexivity].
  rewrite (bind_ok _ _ _ _ _ (setattr_run _ _ _ _ E1)).
  rewrite put_home_twice.
  pose proof (put_home_lookup self h (Home.set_refresh_token r (Home.set_access_token a h)) s1 E) as E2.
  rewrite (bind_ok _ _ _ _ _ (load_home_ok _ _ _ E2)).
  simpl access_token.
  rewrite lift_bind.
  destruct (str_add "Bearer " a) as [bearer|e]; [|reflexivity].
  rewrite (setattr_run _ _ _ _ E2). now rewrite put_home_twice.
Qed.

Lemma getitem_token_field b k :
  token_field (Some b) k = None → ∃ e, getitem b k = Raise e.
Proof.
  destruct b; simpl; eauto. intros ->. eauto.
Qed.

(** A refresh that fails on the status or on a body without
    [access_token] has not touched the heap. *)
Lemma refresh_auth_early_failure self s h e s' x rest st b :
  heap s !! self = Some (OHome h) →
  Home.refresh_auth self s = (Raise e, s') →
  pending s = x :: rest → answer x = Resp st b →
  400 ≤ st ∨ token_field b "access_token" = None →
  heap s' = heap s.
Proof.
  intros E H P A Hc. rewrite (refresh_auth_run _ _ _ E) in H.
  rewrite (send_ok _ _ _ _ _ _ P A) in H. cbn [status_of body_of] in H.
  destruct (400 <=? st) eqn:E400; [now injection H as <- <-|].
  destruct Hc as [Hc|Hc]; [apply Z.leb_gt in E400; lia|].
  destruct b as [response|]; [|now injection H as <- <-].
  apply getitem_token_field in Hc as [e' Hc]. rewrite Hc in H.
  now injection H as <- <-.
Qed.

(** A refresh that fails without an access token handed over has not
    touched the heap: no answer, a status of 400 or above, a body that
    is not JSON, a body without [access_token]. *)
Lemma refresh_auth_no_token self s h e s' :
  heap s !! self = Some (OHome h) →
  Home.refresh_auth self s = (Raise e, s') →
  granted_token s = None →
  heap s' = heap s.
Proof.
  intros E H Hg. rewrite (refresh_auth_run _ _ _ E) in H.
  unfold granted_token in Hg. unfold send in H.
  destruct (pending s) as [|x rest]; [now injection H as <- <-|].
  destruct (answer x) as [|st b]; [now injection H as <- <-|].
  cbn [status_of body_of] in H.
  destruct (400 <=? st); [now injection H as <- <-|].
  destruct b as [response|]; [|now injection H as <- <-].
  apply getitem_token_field in Hg as [e' Hg]. rewrite Hg in H.
  now injection H as <- <-.
Qed.

(** C1, as amended.  When [refresh_auth] fails because the endpoint
    answers with a status of 400 or above, or because the response body
    has no [access_token] field, the session is exactly as it was:
    access token, refresh token and headers.  Whenever it fails, for
    whatever reason, the headers, [Authorization] included, are as they
    were. *)
Theorem refresh_auth_failure self s h e s' :
  heap s !! self = Some (OHome h) →
  Home.refresh_auth self s = (Raise e, s') →
  (∃ h', heap s' !! self = Some (OHome h')
         ∧ access_headers h' = access_headers h)
  ∧ (∀ x rest st b,
       pending s = x :: rest → answer x = Resp st b →
       400 ≤ st ∨ token_field b "access_token" = None →
       heap s' !! self = Some (OHome h)).
Proof.
  intros E H. split.
  - rewrite (refresh_auth_run _ _ _ E) in H.
    pose proof (send_sent (refresh_request h) s) as [_ Hh].
    destruct (send (refresh_request h) s) as [[resp|e1] s1]; simpl in Hh;
      rewrite <- Hh in E.
    + assert (∀ h1, heap (put_home self h1 s1) !! self = Some (OHome h1))
        as Hput by (intros h1; now apply put_home_lookup with (h0 := h)).
      destruct (400 <=? status_of resp); [injection H as <- <-; eauto|].
      destruct (body_of resp) as [response|]; [|injection H as <- <-; eauto].
      destruct (getitem response "access_token") as [a|];
        [|injection H as <- <-; eauto].
      cbv zeta in H.
      destruct (getitem response "refresh_token") as [r|].
      * destruct (str_add "Bearer " a); [discriminate|].
        injection H as <- <-. eexists. split; [apply Hput|reflexivity].
      * injection H as <- <-. eexists. split; [apply Hput|reflexivity].
    + injection H as <- <-. eauto.
  - intros x rest st b P A Hc.
    now rewrite (refresh_auth_early_failure _ _ _ _ _ _ _ _ _ E H P A Hc).
Qed.

Lemma refresh_auth_failure_witness :
  heap (Home.refresh_auth 0%nat (sample_state [status_only 401])).2 !! 0%nat
  = Some (OHome sample_home).
Proof.
  apply (proj2 (refresh_auth_failure 0%nat (sample_state [status_only 401])
                  sample_home (ClientResponseError 401)
                  (Home.refresh_auth 0%nat (sample_state [status_only 401])).2
                  eq_refl eq_refl)
           (status_only 401) [] 401 None eq_refl eq_refl).
  left. lia.
Defined.

(** C1, as stated, fails: on a response that carries a new access
    token but no refresh token, [refresh_auth] fails with [KeyError]
    after it has stored the new access token. *)
Lemma refresh_auth_partial :
  (Home.refresh_auth 0%nat (sample_state [ok_json partial_reply])).1
  = Raise (KeyError (PStr "refresh_token"))
  ∧ access_token <$> home_at 0%nat (sample_state [ok_json partial_reply])
    = Some (PStr "A1")
  ∧ access_token
      <$> home_at 0%nat
            (Home.refresh_auth 0%nat (sample_state [ok_json partial_reply])).2
    = Some (PStr "A2")
  ∧ refresh_token
      <$> home_at 0%nat
            (Home.refresh_auth 0%nat (sample_state [ok_json partial_reply])).2
    = Some (PStr "R1")
  ∧ (access_headers
       <$> home_at 0%nat
             (Home.refresh_auth 0%nat (sample_state [ok_json partial_reply])).2)
      ≫= (.!! "Authorization")
    = Some "Bearer A1".
Proof. repeat split; vm_compute; reflexivity. Qed.

(** *** The Authorization header *)

Lemma set_header_matches a h :
  access_token h = PStr a →
  bearer_matches (Home.set_header "Authorization" ("Bearer " +:+ a) h).
Proof.
  intros E. exists a. split; [exact E|]. simpl. apply lookup_insert_eq.
Qed.

(** C6, as amended.  When [login] returns, and after every [refresh_auth]
    that succeeds, the [Authorization] header is ["Bearer "] followed by
    the access token stored on the session, which after a refresh is the
    one of the response.  A [refresh_auth] that fails without an access
    token handed over, because there is no answer, because the status
    is 400 or above, or because the body is not a JSON object with
    [access_token], leaves the session as it was and with it this
    equality. *)
Theorem authorization_invariant :
  (∀ u p sec s l s',
     login u p sec s = (Ok l, s') →
     ∃ h, heap s' !! l = Some (OHome h) ∧ bearer_matches h)
  ∧ (∀ self s h s',
       heap s !! self = Some (OHome h) →
       Home.refresh_auth self s = (Ok tt, s') →
       ∃ h' x rest st response,
         heap s' !! self = Some (OHome h') ∧ bearer_matches h'
         ∧ pending s = x :: rest ∧ answer x = Resp st (Some response)
         ∧ getitem response "access_token" = Ok (access_token h'))
  ∧ (∀ self s h e s',
       heap s !! self = Some (OHome h) → bearer_matches h →
       Home.refresh_auth self s = (Raise e, s') →
       granted_token s = None →
       heap s' !! self = Some (OHome h)
       ∧ ∃ h', heap s' !! self = Some (OHome h') ∧ bearer_matches h').
Proof.
  split; [|split].
  - intros u p sec s l s' H.
    apply login_inv in H
      as (x1 & x2 & x3 & rest & st1 & decoded & a & r & st2 & b2 & st3 & me
          & homes & first & hid & _ & _ & _ & _ & _ & _ & _ & _ & _ & -> & Hh & _).
    eexists. rewrite Hh. split; [apply list_lookup_middle; reflexivity|].
    exists a. split; [reflexivity|]. simpl. apply lookup_insert_eq.
  - intros self s h s' E H. rewrite (refresh_auth_run _ _ _ E) in H.
    pose proof (send_sent (refresh_request h) s) as [_ Hh].
    destruct (send (refresh_request h) s) as [[resp|e1] s1] eqn:Es;
      simpl in Hh; [|discriminate].
    apply send_ok_inv in Es as (x0 & rest0 & P0 & A0 & _).
    rewrite <- Hh in E.
    destruct (400 <=? status_of resp); [discriminate|].
    destruct (body_of resp) as [response|]; [|discriminate].
    destruct (getitem response "access_token") as [a|] eqn:Ea; [|discriminate].
    simpl in H.
    destruct (getitem response "refresh_token") as [r|]; [|discriminate].
    destruct a as [| | | |a| |]; simpl in H; try discriminate.
    injection H as <-.
    eexists _, x0, rest0, _, response.
    split; [now apply put_home_lookup with (h0 := h)|].
    split; [now apply set_header_matches|].
    split; [exact P0|]. split; [exact A0|exact Ea].
  - intros self s h e s' E Hm H Hg.
    rewrite (refresh_auth_no_token _ _ _ _ _ E H Hg). eauto.
Qed.

Lemma authorization_invariant_witness :
  (∃ h, heap (login "user" "pass" "secret" (fresh_state login_answers)).2
          !! 0%nat = Some (OHome h) ∧ bearer_matches h)
  ∧ (∃ h, heap (Home.refresh_auth 0%nat
                  (sample_state [ok_json (PDict {[ "access_token" := PStr "A2";
                                                    "refresh_token" := PStr "R2" ]})])).2
            !! 0%nat = Some (OHome h) ∧ bearer_matches h)
  ∧ (∃ h, heap (Home.refresh_auth 0%nat (sample_state [status_only 401])).2
            !! 0%nat = Some (OHome h) ∧ bearer_matches h)
  ∧ heap (Home.refresh_auth 0%nat (sample_state [])).2 !! 0%nat
    = Some (OHome sample_home).
Proof.
  assert (bearer_matches sample_home) as Hm
    by (exists "A1"; split; reflexivity).
  split; [|split; [|split]].
  - apply (proj1 authorization_invariant "user" "pass" "secret"
             (fresh_state login_answers) 0%nat).
    reflexivity.
  - set (s := sample_state _).
    assert (Home.refresh_auth 0%nat s = (Ok (), (Home.refresh_auth 0%nat s).2))
      as Hr by (vm_compute; reflexivity).
    destruct (proj1 (proj2 authorization_invariant) 0%nat s sample_home _
                eq_refl Hr)
      as (h & _ & _ & _ & _ & Hl & Hm' & _).
    exists h. auto.
  - apply (proj2 (proj2 authorization_invariant) 0%nat
             (sample_state [status_only 401]) sample_home
             (ClientResponseError 401)
             (Home.refresh_auth 0%nat (sample_state [status_only 401])).2
             eq_refl Hm eq_refl eq_refl).
  - apply (proj2 (proj2 authorization_invariant) 0%nat
             (sample_state []) sample_home ClientConnectionError
             (Home.refresh_auth 0%nat (sample_state [])).2
             eq_refl Hm eq_refl eq_refl).
Defined.

(** C6, as stated, fails: after [login] and a refresh whose response
    lacks the refresh token, the session holds the access token [A2]
    under the header [Bearer A1]. *)
Lemma authorization_stale_after_failed_refresh :
  (Home.refresh_auth 0%nat state_after_login).1
  = Raise (KeyError (PStr "refresh_token"))
  ∧ access_token <$> home_at 0%nat state_after_refresh = Some (PStr "A2")
  ∧ (access_headers <$> home_at 0%nat state_after_refresh)
      ≫= (.!! "Authorization")
    = Some "Bearer A1"
  ∧ ∀ h, home_at 0%nat state_after_refresh = Some h → ¬ bearer_matches h.
Proof.
  split; [vm_compute; reflexivity|]. split; [vm_compute; reflexivity|].
  split; [vm_compute; reflexivity|].
  intros h H (a & Ha & Hh).
  assert (access_token <$> home_at 0%nat state_after_refresh = Some (PStr a))
    as Ha' by (rewrite H; simpl; now rewrite Ha).
  assert ((access_headers <$> home_at 0%nat state_after_refresh)
            ≫= (.!! "Authorization")
          = Some ("Bearer " +:+ a)) as Hh'
    by (rewrite H; simpl; exact Hh).
  vm_compute in Ha'. injection Ha' as <-.
  vm_compute in Hh'. discriminate.
Qed.

(** The other failure after an access token was handed over: a token
    that is not a string is stored, with the refresh token, before the
    header fails to be built. *)
Example authorization_stale_after_type_error :
  (Home.refresh_auth 0%nat (sample_state [ok_json numeric_reply])).1
  = Raise TypeError
  ∧ access_token
      <$> home_at 0%nat
            (Home.refresh_auth 0%nat (sample_state [ok_json numeric_reply])).2
    = Some (PInt 7)
  ∧ (access_headers
       <$> home_at 0%nat
             (Home.refresh_auth 0%nat (sample_state [ok_json numeric_reply])).2)
      ≫= (.!! "Authorization")
    = Some "Bearer A1".
Proof. repeat split; vm_compute; reflexivity. Qed.

(** *** The TTL cache *)

Lemma timer_bind {B : Type} (f : Z → M B) s : (timer ≫= f) s = f (now s) s.
Proof. reflexivity. Qed.

Lemma ret_bind {A B : Type} (a : A) (f : A → M B) s : (mret a ≫= f) s = f a s.
Proof. reflexivity. Qed.

Lemma load_ok self s o : heap s !! self = Some o → load self s = (Ok o, s).
Proof. intros E. unfold load. now rewrite E. Qed.

Lemma getattr_cache_ok self s o c :
  heap s !! self = Some o → cache_of o = Some c →
  getattr_cache self s = (Ok c, s).
Proof.
  intros E Ec. unfold getattr_cache.
  rewrite (bind_ok _ _ _ _ _ (load_ok _ _ _ E)). now rewrite Ec.
Qed.

Lemma update_cache_ok self s o c :
  heap s !! self = Some o →
  update_cache self c s = (Ok tt, put_cache self o c s).
Proof.
  intros E. unfold update_cache.
  now rewrite (bind_ok _ _ _ _ _ (load_ok _ _ _ E)).
Qed.

Lemma assoc_unlink key l : assoc key (unlink key l) = None.
Proof.
  induction l as [|[k e] l IH]; simpl; [reflexivity|].
  destruct (String.eqb k key) eqn:E; simpl; [exact IH|]. now rewrite E.
Qed.

Lemma assoc_snoc key l e :
  assoc key l = None → assoc key (l ++ [(key, e)]) = Some e.
Proof.
  induction l as [|[k e'] l IH]; simpl.
  - now rewrite String.eqb_refl.
  - destruct (String.eqb k key); [discriminate|exact IH].
Qed.

Lemma assoc_tail key l : assoc key l = None → assoc key (tail l) = None.
Proof.
  destruct l as [|[k e] l]; simpl; [reflexivity|].
  destruct (String.eqb k key); [discriminate|auto].
Qed.

Lemma setitem_stores c key v t c' :
  TTLCache_setitem c key v t = Some c' →
  assoc key (links c') = Some {| stored := v; inserted_at := t |}
  ∧ maxsize c' = maxsize c ∧ ttl c' = ttl c.
Proof.
  unfold TTLCache_setitem. destruct (maxsize c <? 1); [discriminate|].
  intros [= <-]. simpl. split; [|auto]. apply assoc_snoc.
  destruct (assoc key (List.filter _ (links c))) eqn:E.
  - apply assoc_unlink.
  - destruct (maxsize c <=? _); [now apply assoc_tail|exact E].
Qed.

Lemma setitem_some c key v t :
  1 ≤ maxsize c → ∃ c', TTLCache_setitem c key v t = Some c'.
Proof.
  intros H. unfold TTLCache_setitem.
  destruct (maxsize c <? 1) eqn:E; [apply Z.ltb_lt in E; lia|]. eauto.
Qed.

Lemma cached_get_hit key ms tl prop self s o c e :
  heap s !! self = Some o → cache_of o = Some c →
  assoc key (links c) = Some e → now s - inserted_at e < ttl c →
  cached_get key ms tl prop self s
  = (Ok (stored e), put_cache self o (touch key e c) s).
Proof.
  intros E Ec Ea Hl. unfold cached_get.
  rewrite (bind_ok _ _ _ _ _ (load_ok _ _ _ E)). rewrite Ec.
  rewrite ret_bind.
  rewrite (bind_ok _ _ _ _ _ (getattr_cache_ok _ _ _ _ E Ec)).
  rewrite timer_bind.
  assert (live c (now s) e = true) as Hlive by (unfold live; now apply Z.ltb_lt).
  unfold TTLCache_contains, TTLCache_getitem. rewrite Ea, Hlive.
  cbv beta iota. rewrite timer_bind. cbv beta iota. rewrite Hlive.
  rewrite (bind_ok _ _ _ _ _ (update_cache_ok _ _ _ _ E)).
  reflexivity.
Qed.

Lemma cached_get_miss key ms tl prop self s o c :
  heap s !! self = Some o → cache_of o = Some c →
  TTLCache_contains c key (now s) = false →
  cached_get key ms tl prop self s
  = match prop self s with
    | (Ok v, s1) =>
        match getattr_cache self s1 with
        | (Ok c1, _) =>
            match TTLCache_setitem c1 key v (now s1) with
            | Some c2 =>
                match update_cache self c2 s1 with
                | (Ok _, s2) => (Ok v, s2)
                | (Raise e, s2) => (Raise e, s2)
                end
            | None => (Raise ValueError, s1)
            end
        | (Raise e, s2) => (Raise e, s2)
        end
    | (Raise e, s1) => (Raise e, s1)
    end.
Proof.
  intros E Ec Hc. unfold cached_get.
  rewrite (bind_ok _ _ _ _ _ (load_ok _ _ _ E)). rewrite Ec.
  rewrite ret_bind.
  rewrite (bind_ok _ _ _ _ _ (getattr_cache_ok _ _ _ _ E Ec)).
  rewrite timer_bind.
  rewrite Hc. cbv beta iota.
  unfold mbind at 1, M_bind at 1.
  destruct (prop self s) as [[v|e] s1]; [|reflexivity].
  unfold mbind at 1, M_bind at 1.
  destruct (getattr_cache self s1) as [[c1|e] s2] eqn:Eg; [|reflexivity].
  assert (s2 = s1) as ->.
  { unfold getattr_cache, load, mbind, M_bind in Eg.
    destruct (heap s1 !! self) as [o1|]; [|discriminate].
    destruct (cache_of o1); injection Eg; auto. }
  rewrite timer_bind.
  destruct (TTLCache_setitem c1 key v (now s1)) as [c2|]; [|reflexivity].
  unfold mbind at 1, M_bind at 1.
  destruct (update_cache self c2 s1) as [[[]|e] s2]; reflexivity.
Qed.



(** Two readings of the device list: 59 seconds after the first, the
    second returns what the first stored and sends nothing; 60 seconds
    after, it sends the one request that fetches the new list. *)
Example devices_twice :
  length (sent state_after_devices) = 1%nat
  ∧ (Home.devices 0%nat (elapse 59 state_after_devices)).1
    = Ok (VJson (PList [PStr "GW03"]))
  ∧ length (sent (Home.devices 0%nat (elapse 59 state_after_devices)).2)
    = 1%nat
  ∧ (Home.devices 0%nat (elapse 60 state_after_devices)).1
    = Ok (VJson (PList []))
  ∧ length (sent (Home.devices 0%nat (elapse 60 state_after_devices)).2)
    = 2%nat.
Proof. repeat split; vm_compute; reflexivity. Qed.

(** On the device list: a hit sends nothing, a miss sends one request. *)
Example devices_requests :
  sent (Home.devices 0%nat (cached_state 50 [ok_json (PList [PStr "GW03"])])).2
  = []
  ∧ length
      (sent (Home.devices 0%nat
               (cached_state 40 [ok_json (PList [PStr "GW03"])])).2)
    = 1%nat.
Proof. split; vm_compute; reflexivity. Qed.

Lemma cache_of_with_cache o c : cache_of (with_cache o c) = Some c.
Proof. now destruct o. Qed.

Lemma put_cache_lookup self o c s :
  heap s !! self = Some o →
  heap (put_cache self o c s) !! self = Some (with_cache o c).
Proof.
  intros E. simpl. apply list_lookup_insert_eq. now apply lookup_lt_Some in E.
Qed.

(** The first access attaches an empty cache and goes on as any other. *)
Lemma cached_get_first key ms tl prop self s o :
  heap s !! self = Some o → cache_of o = None →
  cached_get key ms tl prop self s
  = cached_get key ms tl prop self
      (put_cache self o {| maxsize := ms; ttl := tl; links := [] |} s).
Proof.
  intros E Ec. unfold cached_get.
  rewrite (bind_ok _ _ _ _ _ (load_ok _ _ _ E)). rewrite Ec.
  rewrite (bind_ok _ _ s tt (put_cache self o {| maxsize := ms; ttl := tl; links := [] |} s) eq_refl).
  rewrite (bind_ok _ _ _ _ _ (load_ok _ _ _ (put_cache_lookup _ _ _ _ E))).
  rewrite cache_of_with_cache. now rewrite ret_bind.
Qed.

Lemma with_cache_twice o c1 c2 : with_cache (with_cache o c1) c2 = with_cache o c2.
Proof. now destruct o. Qed.


(** *** The zone listing *)

Lemma int_keys_set m a v : int_keys m → int_keys (dict_set m (PInt a) v).
Proof.
  unfold int_keys. induction 1 as [|[k v'] m [c Hc] Hm IH]; simpl.
  - repeat constructor. eauto.
  - simpl in Hc. subst k. simpl. destruct (c =? a); constructor; simpl; eauto.
Qed.

Lemma dict_get_set m a v b :
  int_keys m →
  dict_get (dict_set m (PInt a) v) (PInt b)
  = if a =? b then Some v else dict_get m (PInt b).
Proof.
  unfold int_keys. induction 1 as [|[k v'] m [c Hc] Hm IH]; simpl.
  - reflexivity.
  - simpl in Hc. subst k. simpl.
    destruct (c =? a) eqn:Eca; simpl.
    + apply Z.eqb_eq in Eca as ->. now destruct (a =? b).
    + rewrite IH. destruct (c =? b) eqn:Ecb; [|reflexivity].
      apply Z.eqb_eq in Ecb as ->. now rewrite Z.eqb_sym, Eca.
Qed.

Lemma zones_dict_other base zs acc i :
  int_keys acc →
  Forall (λ d, ∃ j n, zone_object d j n ∧ j ≠ i) zs →
  dict_get (zones_dict base zs acc) (PInt i) = dict_get acc (PInt i).
Proof.
  intros Hk Hz. revert base acc Hk.
  induction Hz as [|d zs (j & n & (Hid & _) & Hne) _ IH]; intros base acc Hk.
  - reflexivity.
  - simpl. rewrite Hid. simpl. rewrite IH by now apply int_keys_set.
    rewrite dict_get_set by assumption.
    destruct (j =? i) eqn:E; [apply Z.eqb_eq in E; contradiction|reflexivity].
Qed.

Lemma zones_dict_last base zs acc k d i n :
  int_keys acc →
  Forall (λ d, ∃ j n, zone_object d j n) zs →
  zs !! k = Some d → zone_object d i n →
  (∀ j d', (k < j)%nat → zs !! j = Some d' → d' !! "id" ≠ Some (PInt i)) →
  dict_get (zones_dict base zs acc) (PInt i) = Some (base + k)%nat.
Proof.
  intros Hk Hz. revert base acc k Hk.
  induction Hz as [|d0 zs (j0 & n0 & Hz0) Hzs IH]; intros base acc k Hk Hl Hd Hlast.
  - discriminate.
  - destruct k as [|k]; simpl in Hl.
    + injection Hl as ->. simpl. destruct Hd as (Hid & _). rewrite Hid. simpl.
      rewrite zones_dict_other.
      * rewrite dict_get_set by assumption. rewrite Z.eqb_refl.
        f_equal. lia.
      * now apply int_keys_set.
      * apply Forall_lookup_2. intros j d' Hj.
        destruct (Forall_lookup_1 _ _ _ _ Hzs Hj) as (j' & n' & Hz').
        exists j', n'. split; [exact Hz'|].
        intros ->. apply (Hlast (S j) d'); [lia|exact Hj|apply Hz'].
    + simpl. destruct Hz0 as (Hid0 & _). rewrite Hid0. simpl.
      rewrite (IH (S base) _ k); [f_equal; lia|now apply int_keys_set|exact Hl|exact Hd|].
      intros j d' Hj Hl'. apply (Hlast (S j) d'); [lia|exact Hl'].
Qed.

Lemma zones_dict_keys base zs acc i :
  int_keys acc →
  Forall (λ d, ∃ j n, zone_object d j n) zs →
  dict_get (zones_dict base zs acc) (PInt i) ≠ None →
  dict_get acc (PInt i) ≠ None ∨ ∃ d, d ∈ zs ∧ d !! "id" = Some (PInt i).
Proof.
  intros Hk Hz. revert base acc Hk.
  induction Hz as [|d0 zs (j0 & n0 & Hz0) Hzs IH]; intros base acc Hk; simpl.
  - auto.
  - destruct Hz0 as (Hid0 & _). rewrite Hid0. simpl. intros H.
    apply IH in H; [|now apply int_keys_set].
    destruct H as [H|(d & Hd & Hi)].
    + rewrite dict_get_set in H by assumption.
      destruct (j0 =? i) eqn:E; [|now left].
      apply Z.eqb_eq in E as ->. right. exists d0. split; [constructor|exact Hid0].
    + right. exists d. split; [now constructor|exact Hi].
Qed.

Lemma Zone_init_ok self d i n s :
  zone_object d i n →
  Zone_init self (PDict d) s
  = (Ok (length (heap s)), set_heap (heap s ++ [OZone (Zone_of self d)]) s).
Proof.
  intros (Hid & Hn & Hs & Ha). unfold Zone_init, Zone_of.
  rewrite Hs, Ha, Hid, Hn. reflexivity.
Qed.

Lemma zones_comprehension_cons self zone rest acc :
  Home.zones_comprehension self (zone :: rest) acc
  = (lift (getitem zone "id") ≫= λ k,
     Zone_init self zone ≫= λ z,
     if hashable k then Home.zones_comprehension self rest (dict_set acc k z)
     else raise TypeError).
Proof. reflexivity. Qed.

Lemma zones_comprehension_run self zs acc s :
  Forall (λ d, ∃ j n, zone_object d j n) zs →
  Home.zones_comprehension self (PDict <$> zs) acc s
  = (Ok (zones_dict (length (heap s)) zs acc),
     set_heap (heap s ++ (OZone ∘ Zone_of self <$> zs)) s).
Proof.
  intros Hz. revert acc s.
  induction Hz as [|d zs (j & n & Hz0) Hzs IH]; intros acc s.
  - simpl. unfold set_heap. rewrite app_nil_r. now destruct s.
  - rewrite !fmap_cons, zones_comprehension_cons, lift_bind.
    pose proof Hz0 as (Hid & _). cbn [getitem]. rewrite Hid.
    rewrite (bind_ok _ _ _ _ _ (Zone_init_ok self d j n s Hz0)).
    cbn [hashable]. rewrite IH. cbn [zones_dict]. rewrite Hid.
    unfold set_heap. cbn [heap now pending sent default].
    rewrite length_app. cbn [length]. rewrite Nat.add_1_r.
    now rewrite <- app_assoc.
Qed.
Lemma zones_prop_run self s h x rest st zs :
  heap s !! self = Some (OHome h) →
  pending s = x :: rest →
  answer x = Resp st (Some (PList (PDict <$> zs))) → st < 400 →
  Forall (λ d, ∃ i n, zone_object d i n) zs →
  Home.zones_prop self s
  = (Ok (VZones (zones_dict (length (heap s)) zs [])),
     set_heap (heap s ++ (OZone ∘ Zone_of self <$> zs))
       (after x rest
          {| method := "GET";
             target := urljoin API_URL
                         [Lit "homes/"; Fmt (home_id h); Lit "/zones"];
             json := None; data := None;
             headers := Some (access_headers h) |} s)).
Proof.
  intros E P A Hst Hz. unfold Home.zones_prop.
  rewrite (bind_ok _ _ _ _ _ (load_home_ok _ _ _ E)).
  unfold Home.get.
  rewrite (bind_ok _ _ _ _ _ (api_call_ok _ _ _ _ _ _ _ _ _ _ _ E P A Hst)).
  rewrite lift_bind. cbn [py_iter].
  unfold fmap at 1, M_fmap. now rewrite zones_comprehension_run.
Qed.

(** The instances of a listing sit in the heap in the order listed. *)
Lemma zones_allocated self (hp : list obj) zs k d l o o' :
  hp !! l = Some o →
  zs !! k = Some d →
  <[l := o']> (hp ++ (OZone ∘ Zone_of self <$> zs)) !! (length hp + k)%nat
  = Some (OZone (Zone_of self d)).
Proof.
  intros Hl Hk. apply lookup_lt_Some in Hl.
  rewrite list_lookup_insert_ne by lia.
  rewrite lookup_app_r by lia.
  replace (length hp + k - length hp)%nat with k by lia.
  rewrite list_lookup_fmap, Hk. reflexivity.
Qed.

Lemma zones_miss self s h c x rest st zs :
  heap s !! self = Some (OHome h) →
  home_cache h = Some c → 1 ≤ maxsize c →
  TTLCache_contains c "zones" (now s) = false →
  pending s = x :: rest →
  answer x = Resp st (Some (PList (PDict <$> zs))) → st < 400 →
  Forall (λ d, ∃ i n, zone_object d i n) zs →
  ∃ s', Home.zones self s
        = (Ok (VZones (zones_dict (length (heap s)) zs [])), s')
        ∧ ∀ k d, zs !! k = Some d →
            heap s' !! (length (heap s) + k)%nat = Some (OZone (Zone_of self d)).
Proof.
  intros E Ec Hm Hc P A Hst Hz.
  unfold Home.zones, async_cached_property.
  rewrite (cached_get_miss _ _ _ _ _ _ (OHome h) c E Ec Hc).
  rewrite (zones_prop_run _ _ _ _ _ _ _ E P A Hst Hz).
  set (s1 := set_heap _ _).
  assert (heap s1 !! self = Some (OHome h)) as E1
    by (unfold s1; simpl; now apply lookup_app_l_Some).
  rewrite (getattr_cache_ok _ _ _ _ E1 Ec).
  destruct (setitem_some c "zones"
              (VZones (zones_dict (length (heap s)) zs [])) (now s1) Hm)
    as [c' Hs].
  rewrite Hs, (update_cache_ok _ _ _ _ E1).
  eexists. split; [reflexivity|].
  intros k d Hk. unfold put_cache, s1. simpl.
  now apply zones_allocated with (o := OHome h).
Qed.

(** C8, as amended.  Take a zone listing whose elements are objects
    with an integer [id], a [name], and no field called [self] or
    [api], answered to a home that has no live [zones] entry in its
    cache.  The accessor returns a mapping whose integer keys are ids of
    listed zones, and which sends the id of a zone to the [Zone] built
    from the last listed object with that id: that id, the name of that
    object, the owning home as [api], the remaining fields as extras.
    When the ids are all different, every listed zone is sent to the
    [Zone] built from its own object. *)
Theorem zones_mapping self s h x rest st zs :
  heap s !! self = Some (OHome h) →
  (home_cache h = None
   ∨ ∃ c, home_cache h = Some c ∧ 1 ≤ maxsize c
          ∧ TTLCache_contains c "zones" (now s) = false) →
  pending s = x :: rest →
  answer x = Resp st (Some (PList (PDict <$> zs))) → st < 400 →
  Forall (λ d, ∃ i n, zone_object d i n) zs →
  ∃ m s',
    Home.zones self s = (Ok (VZones m), s')
    ∧ (∀ i, dict_get m (PInt i) ≠ None →
         ∃ d, d ∈ zs ∧ d !! "id" = Some (PInt i))
    ∧ (∀ k d i n,
         zs !! k = Some d → zone_object d i n →
         (∀ j d', (k < j)%nat → zs !! j = Some d' →
                  d' !! "id" ≠ Some (PInt i)) →
         ∃ l, dict_get m (PInt i) = Some l
              ∧ heap s' !! l
                = Some (OZone {| zone_id := PInt i; name := n; api := self;
                                 extras := base.delete "id" (base.delete "name" d);
                                 zone_cache := None |}))
    ∧ (NoDup ((.!! "id") <$> zs) →
       ∀ d i n,
         d ∈ zs → zone_object d i n →
         ∃ l, dict_get m (PInt i) = Some l
              ∧ heap s' !! l
                = Some (OZone {| zone_id := PInt i; name := n; api := self;
                                 extras := base.delete "id" (base.delete "name" d);
                                 zone_cache := None |})).
Proof.
  intros E Hcache P A Hst Hz.
  assert (∃ s', Home.zones self s
                = (Ok (VZones (zones_dict (length (heap s)) zs [])), s')
                ∧ ∀ k d, zs !! k = Some d →
                    heap s' !! (length (heap s) + k)%nat
                    = Some (OZone (Zone_of self d))) as (s' & Hrun & Hheap).
  { destruct Hcache as [Hnone|(c & Ec & Hm & Hc)].
    - unfold Home.zones, async_cached_property.
      rewrite (cached_get_first _ _ _ _ _ _ (OHome h) E Hnone).
      set (s0 := put_cache _ _ _ s).
      assert (length (heap s0) = length (heap s)) as <-
        by (unfold s0; simpl; apply length_insert).
      pose proof (put_cache_lookup self (OHome h)
                    {| maxsize := 16; ttl := 60; links := [] |} s E) as E0.
      cbn [with_cache] in E0.
      match type of E0 with
      | _ = Some (OHome ?h0) =>
          apply (zones_miss self s0 h0
                   {| maxsize := 16; ttl := 60; links := [] |}
                   x rest st zs E0 eq_refl);
            [simpl; lia|reflexivity|exact P|exact A|exact Hst|exact Hz]
      end.
    - now apply (zones_miss self s h c x rest st zs). }
  set (m := zones_dict (length (heap s)) zs []) in *.
  assert (∀ k d i n,
            zs !! k = Some d → zone_object d i n →
            (∀ j d', (k < j)%nat → zs !! j = Some d' →
                     d' !! "id" ≠ Some (PInt i)) →
            ∃ l, dict_get m (PInt i) = Some l
                 ∧ heap s' !! l
                   = Some (OZone {| zone_id := PInt i; name := n; api := self;
                                    extras := base.delete "id"
                                                (base.delete "name" d);
                                    zone_cache := None |})) as Hlast.
  { intros k d i n Hk Hd Hlater.
    exists (length (heap s) + k)%nat. split.
    - apply zones_dict_last with (d := d) (n := n); auto. constructor.
    - etransitivity; [exact (Hheap k d Hk)|]. unfold Zone_of.
      destruct Hd as (Hid & Hn & _). now rewrite Hid, Hn. }
  exists m, s'. split; [exact Hrun|]. split; [|split; [exact Hlast|]].
  - intros i Hi. apply zones_dict_keys in Hi; [|constructor|exact Hz].
    destruct Hi as [Hi|Hi]; [now contradiction Hi|exact Hi].
  - intros Hnd d i n Hin Hd.
    apply list_elem_of_lookup in Hin as [k Hk].
    apply (Hlast k d i n Hk Hd). intros j d' Hlt Hj Hid'.
    destruct Hd as (Hid & _).
    assert (k = j) as Heq; [|lia].
    apply (NoDup_lookup _ _ _ (Some (PInt i)) Hnd);
      rewrite list_lookup_fmap; [rewrite Hk|rewrite Hj]; simpl; congruence.
Qed.

Lemma zones_mapping_witness :
  ∃ m s',
    Home.zones 0%nat (sample_state [ok_json (PList [PDict living])])
    = (Ok (VZones m), s')
    ∧ ∃ l, dict_get m (PInt 1) = Some l
           ∧ heap s' !! l
             = Some (OZone {| zone_id := PInt 1; name := PStr "Living";
                              api := 0%nat;
                              extras := base.delete "id"
                                          (base.delete "name" living);
                              zone_cache := None |}).
Proof.
  assert (zone_object living 1 (PStr "Living")) as Hliving
    by (repeat split; reflexivity).
  destruct (zones_mapping 0%nat
              (sample_state [ok_json (PList [PDict living])])
              sample_home (ok_json (PList [PDict living])) [] 200 [living])
    as (m & s' & Hrun & _ & _ & Hown).
  - reflexivity.
  - left. reflexivity.
  - reflexivity.
  - reflexivity.
  - lia.
  - repeat constructor. exists 1, (PStr "Living"). exact Hliving.
  - exists m, s'. split; [exact Hrun|].
    apply (Hown ltac:(repeat constructor; set_solver) living 1 (PStr "Living"));
      [constructor|exact Hliving].
Defined.

(** The scenario of the specification: [{1: Zone(id=1, name="Living")}]. *)
Example zones_scenario :
  (Home.zones 0%nat (sample_state [ok_json (PList [PDict living])])).1
  = Ok (VZones [(PInt 1, 1%nat)])
  ∧ zone_at 1%nat
      (Home.zones 0%nat (sample_state [ok_json (PList [PDict living])])).2
    = Some {| zone_id := PInt 1; name := PStr "Living"; api := 0%nat;
              extras := ∅; zone_cache := None |}.
Proof. split; vm_compute; reflexivity. Qed.

(** C8, as stated, fails: with two listed zones of id 1 the mapping has
    one entry, whose [Zone] carries the name of the second, so the first
    zone is not mapped to a [Zone] of its own name.  And a zone object
    with a field called [api] cannot be turned into a [Zone] at all. *)
Lemma zones_repeated_id :
  (Home.zones 0%nat
     (sample_state [ok_json (PList [PDict zone_a; PDict zone_b])])).1
  = Ok (VZones [(PInt 1, 2%nat)])
  ∧ zone_a !! "name" = Some (PStr "A")
  ∧ name <$> zone_at 2%nat
               (Home.zones 0%nat
                  (sample_state [ok_json (PList [PDict zone_a; PDict zone_b])])).2
    = Some (PStr "B")
  ∧ (Home.zones 0%nat
       (sample_state
          [ok_json (PList [PDict (<["api" := PInt 0]> living)])])).1
    = Raise TypeError.
Proof. repeat split; vm_compute; reflexivity. Qed.

(** *** inside_temperature *)

Lemma load_home_state self s : (load_home self s).2 = s.
Proof.
  unfold load_home, load, mbind, M_bind.
  now destruct (heap s !! self) as [[h|z]|].
Qed.

Lemma load_zone_state self s : (load_zone self s).2 = s.
Proof.
  unfold load_zone, load, mbind, M_bind.
  now destruct (heap s !! self) as [[h|z]|].
Qed.

Lemma api_call_heap self cmd method json data s :
  heap (Home._api_call self cmd method json data s).2 = heap s.
Proof.
  unfold Home._api_call. unfold mbind at 1, M_bind at 1.
  pose proof (load_home_state self s) as Hl.
  destruct (load_home self s) as [[h|e] s0]; simpl in Hl; subst s0;
    [|reflexivity].
  set (r := {| method := method |}).
  pose proof (send_sent r s) as [_ Hh].
  unfold mbind, M_bind.
  destruct (send r s) as [[resp|e] s1]; simpl in *; [|exact Hh].
  unfold raise_for_status.
  destruct (400 <=? status_of resp); simpl; [exact Hh|].
  unfold response_json. destruct (body_of resp); exact Hh.
Qed.

Lemma state_prop_heap self s : heap (Zone.state_prop self s).2 = heap s.
Proof.
  unfold Zone.state_prop. unfold mbind at 1, M_bind at 1.
  pose proof (load_zone_state self s) as Hl.
  destruct (load_zone self s) as [[z|e] s0]; simpl in Hl; subst s0;
    [|reflexivity].
  unfold fmap, M_fmap, Home.get_state. unfold mbind at 1, M_bind at 1.
  pose proof (load_home_state (api z) s) as Hl.
  destruct (load_home (api z) s) as [[h|e] s0]; simpl in Hl; subst s0;
    [|reflexivity].
  unfold Home.get.
  match goal with |- context [Home._api_call ?a ?b ?c ?d ?e s] =>
    pose proof (api_call_heap a b c d e s) as Hh;
    destruct (Home._api_call a b c d e s) as [[v|e'] s1]
  end; exact Hh.
Qed.

(** An access changes nothing in the heap but the cache of [self],
    when the compute leaves the heap alone. *)
Lemma cached_get_heap key ms tl prop self s o :
  heap s !! self = Some o →
  (∀ s0, heap (prop self s0).2 = heap s0) →
  heap (cached_get key ms tl prop self s).2 = heap s
  ∨ ∃ c, heap (cached_get key ms tl prop self s).2
         = <[self := with_cache o c]> (heap s).
Proof.
  intros E Hprop.
  assert (∀ s o c, heap s !! self = Some o → cache_of o = Some c →
            heap (cached_get key ms tl prop self s).2 = heap s
            ∨ ∃ c', heap (cached_get key ms tl prop self s).2
                    = <[self := with_cache o c']> (heap s)) as Hsome.
  { clear s o E. intros s o c E Ec.
    destruct (TTLCache_contains c key (now s)) eqn:Hc.
    - unfold TTLCache_contains in Hc.
      destruct (assoc key (links c)) as [e|] eqn:Ea; [|discriminate].
      unfold live in Hc. apply Z.ltb_lt in Hc.
      rewrite (cached_get_hit _ _ _ _ _ _ _ _ _ E Ec Ea Hc). right. eauto.
    - rewrite (cached_get_miss _ _ _ _ _ _ _ _ E Ec Hc).
      specialize (Hprop s).
      destruct (prop self s) as [[v|e] s1]; simpl in Hprop; [|now left].
      rewrite <- Hprop in E. rewrite (getattr_cache_ok _ _ _ _ E Ec).
      destruct (TTLCache_setitem c key v (now s1)) as [c2|]; [|now left].
      rewrite (update_cache_ok _ _ _ _ E). right. exists c2. simpl.
      now rewrite Hprop. }
  destruct (cache_of o) as [c|] eqn:Ec; [now apply Hsome with (c := c)|].
  rewrite (cached_get_first _ _ _ _ _ _ _ E Ec).
  set (c0 := {| maxsize := ms; ttl := tl; links := [] |}).
  destruct (Hsome _ _ c0 (put_cache_lookup _ _ c0 _ E) (cache_of_with_cache _ _))
    as [H|[c' H]]; right.
  - exists c0. exact H.
  - exists c'. rewrite H. simpl.
    now rewrite list_insert_insert_eq, with_cache_twice.
Qed.

Lemma state_keeps self s z h :
  heap s !! self = Some (OZone z) → heap s !! api z = Some (OHome h) →
  ∃ z1, heap (Zone.state self s).2 !! self = Some (OZone z1)
        ∧ api z1 = api z
        ∧ heap (Zone.state self s).2 !! api z = Some (OHome h).
Proof.
  intros E Eh.
  destruct (cached_get_heap "state" 16 60 Zone.state_prop self s _ E
              (state_prop_heap self)) as [H|[c H]];
    unfold Zone.state, async_cached_property; rewrite H.
  - exists z. auto.
  - assert (self ≠ api z) as Hne by (intros Heq; rewrite <- Heq in Eh; congruence).
    eexists. split; [apply list_lookup_insert_eq; now apply lookup_lt_Some in E|].
    split; [reflexivity|]. now rewrite list_lookup_insert_ne.
Qed.

Lemma access_app target a b :
  access target (a ++ b)
  = match access target a with
    | Ok v => access v b
    | Raise e => Raise e
    end.
Proof.
  revert target. induction a as [|seg a IH]; intros target; simpl.
  - reflexivity.
  - destruct target; try reflexivity.
    destruct (d !! seg); [apply IH|reflexivity].
Qed.

Lemma split_on_plain sep text :
  (∀ c, c ∈ list_ascii_of_string text → c ≠ sep) → split_on sep text = [text].
Proof.
  induction text as [|c text IH]; simpl; intros H; [reflexivity|].
  destruct (Ascii.eqb c sep) eqn:E.
  - apply Ascii.eqb_eq in E. exfalso. apply (H c); [constructor|exact E].
  - rewrite IH; [reflexivity|]. intros c' Hc'. apply H. now constructor.
Qed.

Lemma plain_key_split unit :
  plain_key unit = true → split_on "." unit = [unit].
Proof.
  unfold plain_key. intros H.
  apply andb_prop in H as [H _]. apply andb_prop in H as [H _].
  apply split_on_plain. intros c Hc ->.
  apply list_elem_of_In in Hc.
  rewrite forallb_forall in H. specialize (H _ Hc). discriminate.
Qed.

(** C9, as amended.  Take a zone whose [state] accessor hands over an
    object that holds, under [sensorDataPoints] and then
    [insideTemperature], an object with the value [v] under the unit of
    the owning home, where that unit is one key to glom: no dot in it,
    and not a wildcard.  Then [inside_temperature] returns [v], and
    does nothing beyond the access to [state]. *)
Theorem inside_temperature_value self s z h st s1 d1 d2 d3 v :
  heap s !! self = Some (OZone z) → heap s !! api z = Some (OHome h) →
  Zone.state self s = (Ok (VJson st), s1) →
  st = PDict d1 →
  d1 !! "sensorDataPoints" = Some (PDict d2) →
  d2 !! "insideTemperature" = Some (PDict d3) →
  d3 !! temperature_unit h = Some v →
  plain_key (temperature_unit h) = true →
  Zone.inside_temperature self s = (Ok v, s1).
Proof.
  intros E Eh Hst -> H1 H2 H3 Hplain.
  destruct (state_keeps self s z h E Eh) as (z1 & E1 & Hapi & Eh1).
  rewrite Hst in E1, Eh1. simpl in E1, Eh1.
  unfold Zone.inside_temperature.
  rewrite (bind_ok _ _ _ _ _ Hst).
  rewrite (bind_ok _ _ _ _ _ (load_zone_ok _ _ _ E1)).
  rewrite Hapi, (bind_ok _ _ _ _ _ (load_home_ok _ _ _ Eh1)).
  unfold lift. f_equal.
  cbn [glom_value glom_tuple]. unfold glom.
  change (split_on "." "sensorDataPoints.insideTemperature")
    with ["sensorDataPoints"; "insideTemperature"].
  rewrite (plain_key_split _ Hplain).
  cbn [access]. rewrite H1, H2. cbn [access]. now rewrite H3.
Qed.

Lemma inside_temperature_value_witness :
  Zone.inside_temperature 1%nat (zone_state "celsius" sample_zone_state)
  = (Ok (PFloat f20_5),
     (Zone.state 1%nat (zone_state "celsius" sample_zone_state)).2).
Proof.
  apply (inside_temperature_value 1%nat
           (zone_state "celsius" sample_zone_state)
           (zone_with_state sample_zone_state)
           (home_with_unit "celsius") sample_zone_state
           (Zone.state 1%nat (zone_state "celsius" sample_zone_state)).2
           {[ "sensorDataPoints" :=
                PDict {[ "insideTemperature" :=
                           PDict {[ "celsius" := PFloat f20_5 ]} ]} ]}
           {[ "insideTemperature" := PDict {[ "celsius" := PFloat f20_5 ]} ]}
           {[ "celsius" := PFloat f20_5 ]}
           (PFloat f20_5));
    reflexivity.
Defined.

(** C9, as stated, fails: the state holds the value 1 under the unit
    [a.b] of the home, and [inside_temperature] does not return it; the
    unit is read as the path of the keys [a] and [b]. *)
Lemma inside_temperature_dotted_key :
  temperature_unit (home_with_unit "a.b") = "a.b"
  ∧ (∃ d1 d2 d3,
       dotted_zone_state = PDict d1
       ∧ d1 !! "sensorDataPoints" = Some (PDict d2)
       ∧ d2 !! "insideTemperature" = Some (PDict d3)
       ∧ d3 !! "a.b" = Some (PInt 1))
  ∧ (Zone.state 1%nat (zone_state "a.b" dotted_zone_state)).1
    = Ok (VJson dotted_zone_state)
  ∧ (Zone.inside_temperature 1%nat (zone_state "a.b" dotted_zone_state)).1
    = Raise (PathAccessError "a").
Proof.
  split; [reflexivity|]. split.
  - eexists _, _, _. repeat split; reflexivity.
  - split; vm_compute; reflexivity.
Qed.

(** The scenario of the specification: 20.5 under [celsius], read from
    the cached state without a request. *)
Example inside_temperature_scenario :
  (Zone.inside_temperature 1%nat (zone_state "celsius" sample_zone_state)).1
  = Ok (PFloat f20_5)
  ∧ sent (Zone.inside_temperature 1%nat
            (zone_state "celsius" sample_zone_state)).2 = [].
Proof. split; vm_compute; reflexivity. Qed.

(** A unit with a dot is a path of two keys, not one key. *)
Example inside_temperature_dotted_unit :
  (Zone.inside_temperature 1%nat
     (zone_state "a.b"
        (PDict {[ "sensorDataPoints" :=
                    PDict {[ "insideTemperature" :=
                               PDict {[ "a" := PDict {[ "b" := PInt 1 ]} ]} ]} ]}))).1
  = Ok (PInt 1)
  ∧ (Zone.inside_temperature 1%nat
       (zone_state "a.b"
          (PDict {[ "sensorDataPoints" :=
                      PDict {[ "insideTemperature" :=
                                 PDict {[ "a.b" := PInt 1 ]} ]} ]}))).1
    = Raise (PathAccessError "a").
Proof. split; vm_compute; reflexivity. Qed.

(** *** What an instance has cached *)

Lemma with_cache_same o c : cache_of o = Some c → with_cache o c = o.
Proof.
  destruct o as [h|z]; [destruct h|destruct z]; simpl; now intros ->.
Qed.

Lemma attach_spec ms tl self s o :
  heap s !! self = Some o →
  ∃ c0,
    heap (attach ms tl self s) !! self = Some (with_cache o c0)
    ∧ (cache_of o = Some c0 ∨ cache_of o = None ∧ links c0 = [] ∧ maxsize c0 = ms)
    ∧ ttl c0 = ttl_of tl o
    ∧ now (attach ms tl self s) = now s
    ∧ pending (attach ms tl self s) = pending s
    ∧ sent (attach ms tl self s) = sent s
    ∧ length (heap (attach ms tl self s)) = length (heap s)
    ∧ (∀ l, l ≠ self → heap (attach ms tl self s) !! l = heap s !! l).
Proof.
  intros E. unfold attach, ttl_of. rewrite E.
  destruct (cache_of o) as [c|] eqn:Ec.
  - exists c. split.
    + rewrite E. f_equal. symmetry. now apply with_cache_same.
    + auto 10.
  - exists {| maxsize := ms; ttl := tl; links := [] |}.
    split; [now apply put_cache_lookup|].
    split; [auto|]. simpl. repeat split; auto.
    + apply length_insert.
    + intros l Hl. now apply list_lookup_insert_ne.
Qed.

Lemma cached_get_attach key ms tl prop self s o :
  heap s !! self = Some o →
  cached_get key ms tl prop self s
  = cached_get key ms tl prop self (attach ms tl self s).
Proof.
  intros E. unfold attach. rewrite E.
  destruct (cache_of o) eqn:Ec; [reflexivity|].
  now apply cached_get_first.
Qed.

(** Nothing alive under [key]: the cache attached to [self] says so. *)
Lemma attach_not_live key ms tl self s o :
  heap s !! self = Some o → cached_value key self s = None →
  ∃ c0, heap (attach ms tl self s) !! self = Some (with_cache o c0)
        ∧ TTLCache_contains c0 key (now (attach ms tl self s)) = false
        ∧ ttl c0 = ttl_of tl o
        ∧ (usable o → 1 ≤ ms → 1 ≤ maxsize c0).
Proof.
  intros E Hv.
  destruct (attach_spec ms tl self s o E)
    as (c0 & E0 & Hc0 & Httl & Hnow & _).
  exists c0. split; [exact E0|]. rewrite Hnow. split; [|split; [exact Httl|]].
  - unfold cached_value in Hv. rewrite E in Hv. unfold TTLCache_contains.
    destruct Hc0 as [Hc|(Hc & Hl & _)].
    + rewrite Hc in Hv. destruct (assoc key (links c0)); [|reflexivity].
      now destruct (live c0 (now s) e).
    + now rewrite Hl.
  - intros Hu Hms. destruct Hc0 as [Hc|(_ & _ & ->)]; [now apply Hu|exact Hms].
Qed.

Lemma cached_get_fill key ms tl prop self s o v s1 :
  heap s !! self = Some o → usable o → 1 ≤ ms →
  cached_value key self s = None →
  prop self (attach ms tl self s) = (Ok v, s1) →
  heap s1 !! self = heap (attach ms tl self s) !! self →
  ∃ c', cached_get key ms tl prop self s = (Ok v, put_cache self o c' s1)
        ∧ assoc key (links c')
          = Some {| stored := v; inserted_at := now s1 |}
        ∧ ttl c' = ttl_of tl o.
Proof.
  intros E Hu Hms Hv Hp Hsame.
  destruct (attach_not_live key ms tl self s o E Hv)
    as (c0 & E0 & Hc & Httl & Hmax).
  rewrite (cached_get_attach _ _ _ _ _ _ _ E).
  rewrite (cached_get_miss _ _ _ _ _ _ _ c0 E0 (cache_of_with_cache _ _) Hc).
  rewrite Hp. rewrite E0 in Hsame.
  rewrite (getattr_cache_ok _ _ _ _ Hsame (cache_of_with_cache _ _)).
  destruct (setitem_some c0 key v (now s1) (Hmax Hu Hms)) as [c' Hs].
  rewrite Hs, (update_cache_ok _ _ _ _ Hsame).
  exists c'. apply setitem_stores in Hs as (Ha & _ & Ht).
  split; [|split; [exact Ha|congruence]].
  unfold put_cache. now rewrite with_cache_twice.
Qed.

Lemma cached_get_fail key ms tl prop self s o e s1 :
  heap s !! self = Some o →
  cached_value key self s = None →
  prop self (attach ms tl self s) = (Raise e, s1) →
  cached_get key ms tl prop self s = (Raise e, s1).
Proof.
  intros E Hv Hp.
  destruct (attach_not_live key ms tl self s o E Hv) as (c0 & E0 & Hc & _).
  rewrite (cached_get_attach _ _ _ _ _ _ _ E).
  rewrite (cached_get_miss _ _ _ _ _ _ _ c0 E0 (cache_of_with_cache _ _) Hc).
  now rewrite Hp.
Qed.

(** An entry that is dead stays dead as time goes on. *)
Lemma cached_value_none_later key self s s1 :
  cached_value key self s = None →
  heap s1 !! self = heap s !! self → now s ≤ now s1 →
  cached_value key self s1 = None.
Proof.
  unfold cached_value. intros Hv -> Ht.
  destruct (heap s !! self) as [o|]; [|reflexivity].
  destruct (cache_of o) as [c|]; [|reflexivity].
  destruct (assoc key (links c)) as [e|]; [|reflexivity].
  unfold live in *. destruct (now s - inserted_at e <? ttl c) eqn:E1;
    [discriminate|].
  apply Z.ltb_ge in E1.
  destruct (now s1 - inserted_at e <? ttl c) eqn:E2; [|reflexivity].
  apply Z.ltb_lt in E2. lia.
Qed.

Lemma cached_value_attach key ms tl self s :
  cached_value key self s = None →
  cached_value key self (attach ms tl self s) = None.
Proof.
  intros Hv. destruct (heap s !! self) as [o|] eqn:E.
  - destruct (attach_spec ms tl self s o E)
      as (c0 & E0 & Hc0 & _ & Hnow & _).
    unfold cached_value in *. rewrite E in Hv. rewrite E0, cache_of_with_cache, Hnow.
    destruct Hc0 as [Hc|(_ & Hl & _)]; [now rewrite Hc in Hv|now rewrite Hl].
  - unfold attach. now rewrite E.
Qed.

(** A value stored at the time of [s1] is alive for [ttl] from then. *)
Lemma cached_value_filled key self o c' v s1 d :
  is_Some (heap s1 !! self) →
  assoc key (links c') = Some {| stored := v; inserted_at := now s1 |} →
  d < ttl c' →
  cached_value key self (elapse d (put_cache self o c' s1)) = Some v.
Proof.
  intros [o1 E1] Ha Hd. unfold cached_value. simpl.
  rewrite list_lookup_insert_eq by now apply lookup_lt_Some in E1.
  rewrite cache_of_with_cache, Ha. unfold live. simpl.
  destruct (now s1 + d - now s1 <? ttl c') eqn:E; [reflexivity|].
  apply Z.ltb_ge in E. lia.
Qed.

(** A read of a live value: what comes back and what is left alone. *)
Lemma cached_get_read key ms tl prop self s v :
  cached_value key self s = Some v →
  ∃ s', cached_get key ms tl prop self s = (Ok v, s')
        ∧ sent s' = sent s ∧ pending s' = pending s ∧ now s' = now s
        ∧ length (heap s') = length (heap s)
        ∧ (∀ l, l ≠ self → heap s' !! l = heap s !! l)
        ∧ cached_value key self s' = Some v.
Proof.
  unfold cached_value. intros Hv.
  destruct (heap s !! self) as [o|] eqn:E; [|discriminate].
  destruct (cache_of o) as [c|] eqn:Ec; [|discriminate].
  destruct (assoc key (links c)) as [e|] eqn:Ea; [|discriminate].
  destruct (live c (now s) e) eqn:Hl; [|discriminate].
  injection Hv as <-. pose proof Hl as Hl'. unfold live in Hl'.
  apply Z.ltb_lt in Hl'.
  eexists. split; [apply cached_get_hit; eassumption|]. simpl.
  repeat split.
  - apply length_insert.
  - intros l Hne. now apply list_lookup_insert_ne.
  - rewrite list_lookup_insert_eq by now apply lookup_lt_Some in E.
    rewrite cache_of_with_cache. simpl.
    rewrite (assoc_snoc _ _ _ (assoc_unlink key (links c))).
    unfold live in *. simpl. now rewrite Hl.
Qed.

(** *** The sample instances *)

Lemma usable_sample_home : usable (OHome sample_home).
Proof. intros c H. discriminate. Qed.

Lemma usable_plain_zone : usable (OZone plain_zone).
Proof. intros c H. discriminate. Qed.

Lemma zone_object_living : Forall (λ z, ∃ i n, zone_object z i n) [living].
Proof.
  repeat constructor. exists 1, (PStr "Living"). repeat split; reflexivity.
Qed.

(** *** Calls, refresh and login in sequence *)

Lemma send_pending r s : pending (send r s).2 = tail (pending s).
Proof.
  unfold send. destruct (pending s) as [|x rest]; [reflexivity|].
  now destruct (answer x).
Qed.

Lemma send_now r s : now s ≤ now (send r s).2.
Proof.
  unfold send. destruct (pending s) as [|x rest]; simpl; [lia|].
  destruct (answer x); simpl; lia.
Qed.

(** What an authenticated call comes to, by the answer of the server. *)
Lemma api_call_run self cmd method json data s h :
  heap s !! self = Some (OHome h) →
  Home._api_call self cmd method json data s
  = match send (api_request h cmd method json data) s with
    | (Ok resp, s1) =>
        if 400 <=? status_of resp
        then (Raise (ClientResponseError (status_of resp)), s1)
        else match body_of resp with
             | Some v => (Ok v, s1)
             | None => (Raise ContentTypeError, s1)
             end
    | (Raise e, s1) => (Raise e, s1)
    end.
Proof.
  intros E. unfold Home._api_call.
  rewrite (bind_ok _ _ _ _ _ (load_home_ok _ _ _ E)).
  fold (api_request h cmd method json data).
  unfold mbind at 1, M_bind at 1.
  destruct (send (api_request h cmd method json data) s) as [[resp|e] s1];
    [|reflexivity].
  unfold raise_for_status, mbind, M_bind.
  destruct (400 <=? status_of resp); [reflexivity|].
  unfold response_json. now destruct (body_of resp).
Qed.

(** X1.  An authenticated call of a home makes exactly one request: the
    given method on the command joined to the API URL, with the given
    payloads and the headers of the home.  It takes one answer off the
    server and changes no object, whether it returns or raises; when the
    status of the answer is 400 or above it raises the client response
    error of that status. *)
Theorem api_call_single_request self cmd method json data s h :
  heap s !! self = Some (OHome h) →
  sent (Home._api_call self cmd method json data s).2
  = sent s ++ [api_request h cmd method json data]
  ∧ pending (Home._api_call self cmd method json data s).2 = tail (pending s)
  ∧ heap (Home._api_call self cmd method json data s).2 = heap s
  ∧ (∀ x rest st b,
       pending s = x :: rest → answer x = Resp st b → 400 ≤ st →
       (Home._api_call self cmd method json data s).1
       = Raise (ClientResponseError st)).
Proof.
  intros E. rewrite (api_call_run _ _ _ _ _ _ _ E).
  set (r := api_request h cmd method json data).
  pose proof (send_sent r s) as [Hs Hh]. pose proof (send_pending r s) as Hp.
  assert (∀ x rest st b,
            pending s = x :: rest → answer x = Resp st b →
            send r s = (Ok {| status_of := st; body_of := b |},
                        after x rest r s)) as Hok
    by (intros; now apply send_ok).
  destruct (send r s) as [[resp|e] s1] eqn:Es; simpl in Hs, Hh, Hp.
  - assert (∀ R : result pyval,
              sent (R, s1).2 = sent s ++ [r]
              ∧ pending (R, s1).2 = tail (pending s)
              ∧ heap (R, s1).2 = heap s) as Hframe by (intros; simpl; auto).
    split; [|split; [|split]];
      try (destruct (400 <=? status_of resp); [apply Hframe|];
           destruct (body_of resp); apply Hframe).
    intros x rest st b P A Hst. specialize (Hok x rest st b P A).
    injection Hok as -> _. simpl.
    destruct (400 <=? st) eqn:E4; [reflexivity|]. apply Z.leb_gt in E4. lia.
  - split; [exact Hs|]. split; [exact Hp|]. split; [exact Hh|].
    intros x rest st b P A Hst. specialize (Hok x rest st b P A). discriminate.
Qed.

Lemma api_call_single_request_witness :
  (Home._api_call 0%nat [Lit "me"] "GET" None None
     (sample_state [status_only 401])).1
  = Raise (ClientResponseError 401).
Proof.
  apply (proj2 (proj2 (proj2
           (api_call_single_request 0%nat [Lit "me"] "GET" None None
              (sample_state [status_only 401]) sample_home eq_refl)))
           (status_only 401) [] 401 None eq_refl eq_refl).
  lia.
Defined.

(** A refresh that succeeds: the answer it got and the state it leaves. *)
Lemma refresh_auth_ok_inv self s h s' :
  heap s !! self = Some (OHome h) →
  Home.refresh_auth self s = (Ok tt, s') →
  ∃ x rest st response a r,
    pending s = x :: rest ∧ answer x = Resp st (Some response) ∧ st < 400
    ∧ getitem response "access_token" = Ok (PStr a)
    ∧ getitem response "refresh_token" = Ok r
    ∧ s' = put_home self (refreshed a r h) (after x rest (refresh_request h) s).
Proof.
  intros E H. rewrite (refresh_auth_run _ _ _ E) in H.
  destruct (send (refresh_request h) s) as [[resp|e1] s1] eqn:Es;
    [|discriminate].
  apply send_ok_inv in Es as (x & rest & P & A & ->).
  destruct (400 <=? status_of resp) eqn:E4; [discriminate|].
  apply Z.leb_gt in E4.
  destruct (body_of resp) as [response|]; [|discriminate].
  destruct (getitem response "access_token") as [a|] eqn:Ea; [|discriminate].
  cbv zeta in H.
  destruct (getitem response "refresh_token") as [r|] eqn:Er; [|discriminate].
  destruct a as [| | | |a| |]; simpl in H; try discriminate.
  injection H as <-.
  exists x, rest, (status_of resp), response, a, r. auto 10.
Qed.

(** X2.  A refresh that succeeds changes only the two tokens and the
    [Authorization] header of the home: user name, secret, id,
    temperature unit, cache and every other header are kept, every other
    object is as it was, and the one request sent is the refresh
    request. *)
Theorem refresh_auth_success self s h s' :
  heap s !! self = Some (OHome h) →
  Home.refresh_auth self s = (Ok tt, s') →
  ∃ h',
    heap s' !! self = Some (OHome h')
    ∧ username h' = username h ∧ secret h' = secret h
    ∧ home_id h' = home_id h ∧ temperature_unit h' = temperature_unit h
    ∧ home_cache h' = home_cache h
    ∧ (∀ k, k ≠ "Authorization" →
         access_headers h' !! k = access_headers h !! k)
    ∧ (∀ l, l ≠ self → heap s' !! l = heap s !! l)
    ∧ sent s' = sent s ++ [refresh_request h].
Proof.
  intros E H.
  destruct (refresh_auth_ok_inv _ _ _ _ E H)
    as (x & rest & st & response & a & r & _ & _ & _ & _ & _ & ->).
  exists (refreshed a r h). split; [now apply put_home_lookup with (h0 := h)|].
  repeat split; try reflexivity.
  - intros k Hk. simpl. now apply lookup_insert_ne.
  - intros l Hl. simpl. now apply list_lookup_insert_ne.
Qed.

Lemma refresh_auth_success_witness :
  ∃ h', heap refreshed_state !! 0%nat = Some (OHome h')
        ∧ home_cache h' = home_cache sample_home
        ∧ access_headers h' !! "Referer"
          = access_headers sample_home !! "Referer".
Proof.
  assert (Home.refresh_auth 0%nat (sample_state [ok_json refresh_reply])
          = (Ok tt, refreshed_state)) as Hrun by (vm_compute; reflexivity).
  destruct (refresh_auth_success 0%nat (sample_state [ok_json refresh_reply]) sample_home refreshed_state
              eq_refl Hrun)
    as (h' & E & _ & _ & _ & _ & Hc & Hh & _).
  exists h'. split; [exact E|]. split; [exact Hc|]. apply Hh. discriminate.
Defined.

(** X3.  After a refresh that succeeds, the next authenticated call of
    the home, whatever it is, carries [Bearer] followed by the access
    token of the refresh response, beside the headers the home had. *)
Theorem refresh_then_call self s h s' :
  heap s !! self = Some (OHome h) →
  Home.refresh_auth self s = (Ok tt, s') →
  ∃ a,
    token_field (next_body s) "access_token" = Some (PStr a)
    ∧ ∀ cmd verb body form,
        ∃ q, last (sent (Home._api_call self cmd verb body form s').2)
             = Some q
             ∧ method q = verb ∧ target q = urljoin API_URL cmd
             ∧ headers q
               = Some (<["Authorization" := "Bearer " +:+ a]>
                         (access_headers h)).
Proof.
  intros E H.
  destruct (refresh_auth_ok_inv _ _ _ _ E H)
    as (x & rest & st & response & a & r & P & A & _ & Ha & _ & ->).
  exists a. split.
  - unfold next_body. rewrite P, A. unfold token_field.
    destruct response; simpl in Ha; try discriminate.
    destruct (d !! "access_token"); [|discriminate]. congruence.
  - intros cmd verb body form.
    pose proof (put_home_lookup self h (refreshed a r h)
                  (after x rest (refresh_request h) s) E) as E'.
    eexists. rewrite (api_call_sent _ _ _ _ _ _ _ E'), last_snoc.
    split; [reflexivity|]. auto.
Qed.

Lemma refresh_then_call_witness :
  ∃ a q,
    token_field (next_body (sample_state [ok_json refresh_reply]))
      "access_token" = Some (PStr a)
    ∧ last (sent (Home._api_call 0%nat [Lit "me"] "GET" None None
                    refreshed_state).2) = Some q
    ∧ headers q
      = Some (<["Authorization" := "Bearer " +:+ a]>
                (access_headers sample_home)).
Proof.
  assert (Home.refresh_auth 0%nat (sample_state [ok_json refresh_reply])
          = (Ok tt, refreshed_state)) as Hrun by (vm_compute; reflexivity).
  destruct (refresh_then_call 0%nat (sample_state [ok_json refresh_reply]) sample_home refreshed_state
              eq_refl Hrun) as (a & Ha & Hcall).
  destruct (Hcall [Lit "me"] "GET" None None) as (q & Hq & _ & _ & Hh).
  exists a, q. auto.
Defined.

(** A field that the lookup finds in the answer the server gives
    next. *)
Lemma next_body_field s x rest st response k v :
  pending s = x :: rest → answer x = Resp st (Some response) →
  getitem response k = Ok v →
  token_field (next_body s) k = Some v.
Proof.
  intros P A H. unfold next_body. rewrite P, A. unfold token_field.
  destruct response; simpl in H; try discriminate.
  destruct (d !! k); [congruence|discriminate].
Qed.

(** X4.  After a refresh that succeeds, a second refresh posts the
    refresh token that the response to the first one held, with the
    client secret of the home, under the [Authorization] header made of
    the access token of that response; it sends that one request. *)
Theorem refresh_auth_chain self s h s' :
  heap s !! self = Some (OHome h) →
  Home.refresh_auth self s = (Ok tt, s') →
  ∃ a r q,
    token_field (next_body s) "access_token" = Some (PStr a)
    ∧ token_field (next_body s) "refresh_token" = Some r
    ∧ heap s' !! self = Some (OHome (refreshed a r h))
    ∧ last (sent (Home.refresh_auth self s').2) = Some q
    ∧ data q ≫= (.!! "refresh_token") = Some r
    ∧ data q ≫= (.!! "client_secret") = Some (PStr (secret h))
    ∧ headers q ≫= (.!! "Authorization") = Some ("Bearer " +:+ a)
    ∧ sent (Home.refresh_auth self s').2 = sent s' ++ [q].
Proof.
  intros E H.
  destruct (refresh_auth_ok_inv _ _ _ _ E H)
    as (x & rest & st & response & a & r & P & A & _ & Ha & Hr & ->).
  pose proof (put_home_lookup self h (refreshed a r h)
                (after x rest (refresh_request h) s) E) as E'.
  exists a, r, (refresh_request (refreshed a r h)).
  split; [exact (next_body_field _ _ _ _ _ _ _ P A Ha)|].
  split; [exact (next_body_field _ _ _ _ _ _ _ P A Hr)|].
  split; [exact E'|].
  assert (sent (Home.refresh_auth self
                  (put_home self (refreshed a r h)
                     (after x rest (refresh_request h) s))).2
          = sent (put_home self (refreshed a r h)
                    (after x rest (refresh_request h) s))
            ++ [refresh_request (refreshed a r h)]) as Hs.
  { rewrite (refresh_auth_run _ _ _ E').
    set (q := refresh_request (refreshed a r h)).
    pose proof (send_sent q (put_home self (refreshed a r h)
                               (after x rest (refresh_request h) s)))
      as [Hq _].
    destruct (send q _) as [[resp|e1] s1]; simpl in Hq; [|exact Hq].
    destruct (400 <=? status_of resp); [exact Hq|].
    destruct (body_of resp) as [response'|]; [|exact Hq].
    destruct (getitem response' "access_token"); [|exact Hq].
    cbv zeta. destruct (getitem response' "refresh_token"); [|exact Hq].
    destruct (str_add "Bearer " a0); exact Hq. }
  rewrite Hs, last_snoc. split; [reflexivity|].
  split; [reflexivity|]. split; [reflexivity|].
  split; [|reflexivity]. simpl. apply lookup_insert_eq.
Qed.

Lemma refresh_auth_chain_witness :
  ∃ q,
    last (sent (Home.refresh_auth 0%nat refreshed_state).2) = Some q
    ∧ data q ≫= (.!! "refresh_token") = Some (PStr "R2")
    ∧ headers q ≫= (.!! "Authorization") = Some "Bearer A2".
Proof.
  assert (Home.refresh_auth 0%nat (sample_state [ok_json refresh_reply])
          = (Ok tt, refreshed_state)) as Hrun by (vm_compute; reflexivity).
  destruct (refresh_auth_chain 0%nat (sample_state [ok_json refresh_reply])
              sample_home refreshed_state eq_refl Hrun)
    as (a & r & q & Ha & Hr & _ & Hq & Hd & _ & Hh & _).
  injection Ha as <-. injection Hr as <-.
  exists q. auto.
Defined.

(** A [login] that returns: the token it got, what it sent, what it
    built. *)
Lemma login_ok_sent u p sec s l s' :
  login u p sec s = (Ok l, s') →
  ∃ a r hid,
    token_field (next_body s) "access_token" = Some (PStr a)
    ∧ sent s' = sent s ++ login_requests u p sec a
    ∧ l = length (heap s)
    ∧ heap s' = heap s ++
        [OHome {| username := u; secret := sec; home_id := hid;
                  access_token := PStr a; refresh_token := r;
                  access_headers :=
                    <["Authorization" := "Bearer " +:+ a]> HEADERS;
                  temperature_unit := "celsius"; home_cache := None |}]
    ∧ pending s' = drop 3 (pending s).
Proof.
  unfold login. intros H. unfold mbind, M_bind in H.
  step H as resp1 s1 E. apply send_ok_inv in E as (x1 & rest1 & P1 & A1 & ->).
  unfold response_json, lift at 1 2 3 4 in H.
  destruct resp1 as [st1 [decoded|]]; simpl in H; [|discriminate].
  destruct (getitem decoded "access_token") as [a|] eqn:Ea; [|discriminate].
  destruct (getitem decoded "refresh_token") as [r|] eqn:Er; [|discriminate].
  destruct a as [| | | |a| |]; simpl in H; try discriminate.
  step H as resp2 s2 E. apply send_ok_inv in E as (x2 & rest2 & P2 & A2 & ->).
  step H as resp3 s3 E. apply send_ok_inv in E as (x3 & rest3 & P3 & A3 & ->).
  destruct resp3 as [st3 [me|]]; simpl in H; [|discriminate].
  unfold lift in H.
  destruct (getitem me "homes") as [homes|] eqn:Eh; [|discriminate].
  destruct (getindex homes 0) as [first|] eqn:Ef; [|discriminate].
  destruct (getitem first "id") as [hid|] eqn:Ei; [|discriminate].
  unfold new in H. injection H as <- <-.
  simpl in *. subst. exists a, r, hid.
  split.
  - unfold next_body. rewrite P1, A1. simpl.
    destruct decoded; simpl in Ea; try discriminate.
    destruct (d !! "access_token"); [|discriminate]. congruence.
  - rewrite P1. simpl. rewrite <- !app_assoc. auto.
Qed.

(** X5.  A [login] that returns has sent exactly three requests, in
    this order: the POST of the password grant, without headers; the GET
    of [api/v1/me]; the GET of [api/v2/me]; the two GETs under [Referer]
    and the bearer of the access token received.  It has consumed three
    answers. *)
Theorem login_three_requests u p sec s l s' :
  login u p sec s = (Ok l, s') →
  ∃ a,
    token_field (next_body s) "access_token" = Some (PStr a)
    ∧ sent s' = sent s ++ login_requests u p sec a
    ∧ pending s' = drop 3 (pending s).
Proof.
  intros H.
  destruct (login_ok_sent _ _ _ _ _ _ H) as (a & r & hid & Ha & Hs & _ & _ & Hp).
  eauto.
Qed.

Lemma login_three_requests_witness :
  ∃ a,
    token_field (next_body (fresh_state login_answers)) "access_token"
    = Some (PStr a)
    ∧ sent (login "user" "pass" "secret" (fresh_state login_answers)).2
      = sent (fresh_state login_answers)
        ++ login_requests "user" "pass" "secret" a
    ∧ pending (login "user" "pass" "secret" (fresh_state login_answers)).2
      = drop 3 (pending (fresh_state login_answers)).
Proof.
  assert (login "user" "pass" "secret" (fresh_state login_answers)
          = (Ok 0%nat,
             (login "user" "pass" "secret" (fresh_state login_answers)).2))
    as Hrun by (vm_compute; reflexivity).
  exact (login_three_requests _ _ _ _ _ _ Hrun).
Defined.

(** X6.  On the home a [login] returns, an authenticated call carries
    exactly two headers: [Referer], and [Authorization] with [Bearer]
    followed by the access token of the token response. *)
Theorem login_then_call u p sec s l s' :
  login u p sec s = (Ok l, s') →
  ∃ a,
    token_field (next_body s) "access_token" = Some (PStr a)
    ∧ ∀ cmd verb body form,
        ∃ q, last (sent (Home._api_call l cmd verb body form s').2) = Some q
             ∧ method q = verb ∧ target q = urljoin API_URL cmd
             ∧ headers q
               = Some {[ "Authorization" := "Bearer " +:+ a;
                         "Referer" := "https://my.tado.com/" ]}.
Proof.
  intros H.
  destruct (login_ok_sent _ _ _ _ _ _ H)
    as (a & r & hid & Ha & _ & -> & Hh & _).
  exists a. split; [exact Ha|]. intros cmd verb body form.
  assert (heap s' !! length (heap s)
          = Some (OHome {| username := u; secret := sec; home_id := hid;
                           access_token := PStr a; refresh_token := r;
                           access_headers :=
                             <["Authorization" := "Bearer " +:+ a]> HEADERS;
                           temperature_unit := "celsius";
                           home_cache := None |})) as E
    by (rewrite Hh; apply list_lookup_middle; reflexivity).
  eexists. rewrite (api_call_sent _ _ _ _ _ _ _ E), last_snoc.
  split; [reflexivity|]. auto.
Qed.

Lemma login_then_call_witness :
  ∃ a q,
    token_field (next_body (fresh_state login_answers)) "access_token"
    = Some (PStr a)
    ∧ last (sent (Home._api_call 0%nat [Lit "me"] "GET" None None
                    (login "user" "pass" "secret"
                       (fresh_state login_answers)).2).2) = Some q
    ∧ headers q
      = Some {[ "Authorization" := "Bearer " +:+ a;
                "Referer" := "https://my.tado.com/" ]}.
Proof.
  assert (login "user" "pass" "secret" (fresh_state login_answers)
          = (Ok 0%nat,
             (login "user" "pass" "secret" (fresh_state login_answers)).2))
    as Hrun by (vm_compute; reflexivity).
  destruct (login_then_call _ _ _ _ _ _ Hrun) as (a & Ha & Hcall).
  destruct (Hcall [Lit "me"] "GET" None None) as (q & Hq & _ & _ & Hh).
  exists a, q. auto.
Defined.

(** X7.  A [login] that raises, at whichever of its steps, has built
    no [Home] and touched no object. *)
Theorem login_failure_allocates_nothing u p sec s e s' :
  login u p sec s = (Raise e, s') → heap s' = heap s.
Proof.
  unfold login. intros H. unfold mbind, M_bind in H.
  match type of H with context [send ?r s] =>
    pose proof (send_sent r s) as [_ H1];
    destruct (send r s) as [[resp1|e1] s1]; simpl in H1
  end; [|simpl in H; now injection H as <- <-].
  unfold response_json, lift at 1 2 3 4 in H.
  destruct (body_of resp1) as [decoded|]; [|simpl in H; now injection H as <- <-].
  simpl in H.
  destruct (getitem decoded "access_token") as [a|];
    [|simpl in H; now injection H as <- <-].
  destruct (getitem decoded "refresh_token") as [r|];
    [|simpl in H; now injection H as <- <-].
  destruct (str_add "Bearer " a) as [bearer|];
    [|simpl in H; now injection H as <- <-].
  simpl in H.
  match type of H with context [send ?r s1] =>
    pose proof (send_sent r s1) as [_ H2];
    destruct (send r s1) as [[resp2|e2] s2]; simpl in H2
  end; [|simpl in H; injection H as <- <-; congruence].
  match type of H with context [send ?r s2] =>
    pose proof (send_sent r s2) as [_ H3];
    destruct (send r s2) as [[resp3|e3] s3]; simpl in H3
  end; [|simpl in H; injection H as <- <-; congruence].
  destruct (body_of resp3) as [me|];
    [|simpl in H; injection H as <- <-; congruence].
  simpl in H.
  unfold lift in H.
  destruct (getitem me "homes") as [homes|];
    [|simpl in H; injection H as <- <-; congruence].
  destruct (getindex homes 0) as [first|];
    [|simpl in H; injection H as <- <-; congruence].
  destruct (getitem first "id") as [hid|];
    [|simpl in H; injection H as <- <-; congruence].
  discriminate.
Qed.

Lemma login_failure_allocates_nothing_witness :
  heap (login "user" "pass" "secret" (fresh_state [status_only 401])).2
  = heap (fresh_state [status_only 401]).
Proof.
  assert (login "user" "pass" "secret" (fresh_state [status_only 401])
          = (Raise ContentTypeError,
             (login "user" "pass" "secret"
                (fresh_state [status_only 401])).2))
    as Hrun by (vm_compute; reflexivity).
  exact (login_failure_allocates_nothing _ _ _ _ _ _ Hrun).
Defined.

(** X8.  [login] checks no status.  Whatever the statuses of the three
    answers, when the first body has both tokens, the access token a
    string, and the third body lists a first home with an id, [login]
    returns a new [Home] with that id, these tokens, the headers made
    from the access token, the unit [celsius] and no cache. *)
Theorem login_ignores_status u p sec s x1 x2 x3 rest st1 st2 st3 b2
    decoded me a r first others hid :
  pending s = x1 :: x2 :: x3 :: rest →
  answer x1 = Resp st1 (Some decoded) →
  getitem decoded "access_token" = Ok (PStr a) →
  getitem decoded "refresh_token" = Ok r →
  answer x2 = Resp st2 b2 →
  answer x3 = Resp st3 (Some me) →
  getitem me "homes" = Ok (PList (first :: others)) →
  getitem first "id" = Ok hid →
  (login u p sec s).1 = Ok (length (heap s))
  ∧ heap (login u p sec s).2
    = heap s ++
        [OHome {| username := u; secret := sec; home_id := hid;
                  access_token := PStr a; refresh_token := r;
                  access_headers :=
                    <["Authorization" := "Bearer " +:+ a]> HEADERS;
                  temperature_unit := "celsius"; home_cache := None |}].
Proof.
  intros P A1 Ea Er A2 A3 Hh Hi.
  assert (∃ s', login u p sec s = (Ok (length (heap s)), s')
                ∧ heap s'
                  = heap s ++
                      [OHome {| username := u; secret := sec; home_id := hid;
                                access_token := PStr a; refresh_token := r;
                                access_headers :=
                                  <["Authorization" := "Bearer " +:+ a]> HEADERS;
                                temperature_unit := "celsius";
                                home_cache := None |}]) as (s' & -> & Hs);
    [|split; [reflexivity|exact Hs]].
  unfold login.
  erewrite bind_ok by (apply send_ok; eassumption).
  unfold response_json at 1. simpl body_of. cbv iota.
  rewrite (bind_ok _ _ _ decoded _ eq_refl).
  rewrite lift_bind, Ea, lift_bind, Er, lift_bind, lift_bind.
  simpl str_add. cbv iota.
  erewrite bind_ok by (apply send_ok; [reflexivity|eassumption]).
  erewrite bind_ok by (apply send_ok; [reflexivity|eassumption]).
  simpl body_of. cbv iota.
  rewrite (bind_ok _ _ _ me _ eq_refl).
  rewrite lift_bind, Hh, lift_bind. simpl getindex. cbv iota.
  rewrite lift_bind, Hi. unfold new. eexists. split; reflexivity.
Qed.

Lemma login_ignores_status_witness :
  (login "user" "pass" "secret"
     (fresh_state [ {| elapsed := 1; answer := Resp 500 (Some token_reply) |};
                    status_only 503;
                    {| elapsed := 1; answer := Resp 404 (Some me_reply) |} ])).1
  = Ok 0%nat.
Proof.
  refine (proj1 (login_ignores_status "user" "pass" "secret"
           (fresh_state
              [ {| elapsed := 1; answer := Resp 500 (Some token_reply) |};
                status_only 503;
                {| elapsed := 1; answer := Resp 404 (Some me_reply) |} ])
           {| elapsed := 1; answer := Resp 500 (Some token_reply) |}
           (status_only 503)
           {| elapsed := 1; answer := Resp 404 (Some me_reply) |} []
           500 503 404 None token_reply me_reply _ _ _ _ _
           eq_refl eq_refl _ _ eq_refl eq_refl _ _));
    vm_compute; reflexivity.
Defined.

(** *** A temperature that is not a number *)

Lemma is_number_cmp v n :
  if is_number v then ∃ c, cmp_int v n = Ok c else cmp_int v n = Raise TypeError.
Proof. destruct v; simpl; eauto. Qed.

(** X9.  The setting of [set_temperature] raises [TypeError] exactly
    when the temperature is not a number ([bool], [int] or [float]).
    With such a temperature, [set_temperature] of a home and of a zone
    raise [TypeError] before anything is sent: the state is as it
    was. *)
Theorem set_temperature_not_a_number temperature :
  (is_number temperature = false ↔
   Home.get_setting_dict temperature = Raise TypeError)
  ∧ (is_number temperature = false →
     (∀ self zone termination s,
        Home.set_temperature self zone temperature termination s
        = (Raise TypeError, s))
     ∧ (∀ self termination s z,
          heap s !! self = Some (OZone z) →
          Zone.set_temperature self temperature termination s
          = (Raise TypeError, s))).
Proof.
  assert (is_number temperature = false →
          Home.get_setting_dict temperature = Raise TypeError) as Hraise.
  { intros Hn. pose proof (is_number_cmp temperature 5) as Hc.
    rewrite Hn in Hc. unfold Home.get_setting_dict, py_lt. now rewrite Hc. }
  split.
  - split; [exact Hraise|].
    intros Hr. pose proof (is_number_cmp temperature 5) as Hc.
    destruct (is_number temperature); [|reflexivity].
    destruct Hc as [c Hc]. unfold Home.get_setting_dict, py_lt in Hr.
    rewrite Hc in Hr. now destruct c as [[]|].
  - intros Hn.
    assert (∀ self zone termination s,
              Home.set_temperature self zone temperature termination s
              = (Raise TypeError, s)) as Hhome.
    { intros self zone termination s. unfold Home.set_temperature.
      rewrite lift_bind. unfold Home.payload. now rewrite (Hraise Hn). }
    split; [exact Hhome|].
    intros self termination s z E. unfold Zone.set_temperature.
    rewrite (bind_ok _ _ _ _ _ (load_zone_ok _ _ _ E)). apply Hhome.
Qed.

Lemma set_temperature_not_a_number_witness :
  Home.set_temperature 0%nat (PInt 1) PNone (PStr "MANUAL") (sample_state [])
  = (Raise TypeError, sample_state []).
Proof.
  apply (proj1 (proj2 (set_temperature_not_a_number PNone) eq_refl)).
Defined.

(** *** Operations that go through one authenticated call *)

Lemma load_home_inv self s h s1 :
  load_home self s = (Ok h, s1) → s1 = s ∧ heap s !! self = Some (OHome h).
Proof.
  unfold load_home, load, mbind, M_bind.
  destruct (heap s !! self) as [[h0|z]|]; try discriminate.
  now intros [= <- <-].
Qed.

Lemma load_zone_inv self s z s1 :
  load_zone self s = (Ok z, s1) → s1 = s ∧ heap s !! self = Some (OZone z).
Proof.
  unfold load_zone, load, mbind, M_bind.
  destruct (heap s !! self) as [[h0|z0]|]; try discriminate.
  now intros [= <- <-].
Qed.

(** A computation that reads the home and then makes one call leaves
    the heap as it is. *)
Lemma home_call_heap {A : Type} self (k : Home → M A) s :
  (∀ h s0, heap (k h s0).2 = heap s0) →
  heap ((load_home self ≫= k) s).2 = heap s.
Proof.
  intros Hk. unfold mbind, M_bind.
  pose proof (load_home_state self s) as Hl.
  destruct (load_home self s) as [[h|e] s0]; simpl in Hl; subst s0;
    [apply Hk|reflexivity].
Qed.

Lemma zone_call_heap {A : Type} self (k : Zone → M A) s :
  (∀ z s0, heap (k z s0).2 = heap s0) →
  heap ((load_zone self ≫= k) s).2 = heap s.
Proof.
  intros Hk. unfold mbind, M_bind.
  pose proof (load_zone_state self s) as Hl.
  destruct (load_zone self s) as [[z|e] s0]; simpl in Hl; subst s0;
    [apply Hk|reflexivity].
Qed.

Lemma fmap_heap {A B : Type} (f : A → B) (m : M A) s :
  heap ((f <$> m) s).2 = heap (m s).2.
Proof. unfold fmap, M_fmap. now destruct (m s) as [[a|e] s1]. Qed.

Lemma set_temperature_heap self zone t term s :
  heap (Home.set_temperature self zone t term s).2 = heap s.
Proof.
  unfold Home.set_temperature. rewrite lift_bind.
  destruct (Home.payload t term); [|reflexivity].
  apply home_call_heap. intros. apply api_call_heap.
Qed.

Lemma end_manual_control_heap self zone s :
  heap (Home.end_manual_control self zone s).2 = heap s.
Proof. apply home_call_heap. intros. apply api_call_heap. Qed.

Lemma cached_value_heap key l s s' :
  heap s' = heap s →
  cached_value key l s' = cached_value key l (elapse (now s' - now s) s).
Proof.
  intros Hh. unfold cached_value. simpl. rewrite Hh.
  now replace (now s + (now s' - now s)) with (now s') by lia.
Qed.

(** X10.  No operation that writes to the server touches a cache:
    after [set_temperature], [set_early_start], [set_presence] or
    [end_manual_control], on a home or through a zone, whether it
    returned or raised, the objects are as they were, and what any
    cached accessor of any instance would find alive is what it would
    have found with the passing of time alone. *)
Theorem writes_keep_caches home zone z t term enabled to w s :
  w ∈ writes home zone z t term enabled to →
  heap (w s).2 = heap s
  ∧ ∀ key l,
      cached_value key l (w s).2
      = cached_value key l (elapse (now (w s).2 - now s) s).
Proof.
  intros Hw.
  assert (heap (w s).2 = heap s) as Hh.
  { unfold writes in Hw.
    repeat (apply elem_of_cons in Hw as [->|Hw]);
      [| | | | | |now apply elem_of_nil in Hw].
    - apply set_temperature_heap.
    - apply home_call_heap. intros. apply api_call_heap.
    - apply home_call_heap. intros. apply api_call_heap.
    - apply end_manual_control_heap.
    - apply zone_call_heap. intros. apply set_temperature_heap.
    - apply zone_call_heap. intros. apply end_manual_control_heap. }
  split; [exact Hh|]. intros key l. now apply cached_value_heap.
Qed.

Lemma writes_keep_caches_witness :
  heap (Home.set_temperature 0%nat (PInt 1) (PInt 21) (PStr "MANUAL")
          (cached_state 50 [ok_json (PDict ∅)])).2
  = heap (cached_state 50 [ok_json (PDict ∅)]).
Proof.
  apply (writes_keep_caches 0%nat 1%nat (PInt 1) (PInt 21) (PStr "MANUAL")
           (PBool true) (PStr "HOME")).
  apply list_elem_of_here.
Defined.

(** *** The accessors of a home *)

(** Every getter of the table reads the home and makes the one [GET] of
    its command. *)
Lemma home_getters_run zone f cmd self s h :
  (f, cmd) ∈ home_getters zone →
  heap s !! self = Some (OHome h) →
  f self s = Home._api_call self (cmd h) "GET" None None s.
Proof.
  intros Hf E. unfold home_getters in Hf.
  repeat (apply elem_of_cons in Hf as [[= -> ->]|Hf]);
    try (now apply elem_of_nil in Hf);
    cbv beta;
    unfold Home.presence, Home.home_state, Home.get_capabilities,
      Home.get_schedule, Home.get_state;
    now rewrite (bind_ok _ _ _ _ _ (load_home_ok _ _ _ E)).
Qed.

(** X11.  [presence], [home_state], [get_capabilities], [get_schedule]
    and [get_state] of a home are not cached: two calls in a row send
    the same GET twice and return the first and then the second body
    the server gives. *)
Theorem home_getters_not_cached zone f cmd self s h x1 x2 rest st1 st2 b1 b2 :
  (f, cmd) ∈ home_getters zone →
  heap s !! self = Some (OHome h) →
  pending s = x1 :: x2 :: rest →
  answer x1 = Resp st1 (Some b1) → st1 < 400 →
  answer x2 = Resp st2 (Some b2) → st2 < 400 →
  (f self s).1 = Ok b1
  ∧ (f self (f self s).2).1 = Ok b2
  ∧ sent (f self (f self s).2).2
    = sent s ++ [api_request h (cmd h) "GET" None None;
                 api_request h (cmd h) "GET" None None].
Proof.
  intros Hf E P A1 H1 A2 H2.
  rewrite (home_getters_run _ _ _ _ _ _ Hf E).
  rewrite (api_call_ok _ _ _ _ _ _ _ _ _ _ _ E P A1 H1).
  cbn [fst snd]. split; [reflexivity|].
  set (s1 := after x1 (x2 :: rest) _ s).
  assert (heap s1 !! self = Some (OHome h)) as E1 by exact E.
  rewrite (home_getters_run _ _ _ _ _ _ Hf E1).
  rewrite (api_call_ok _ _ _ _ _ _ _ x2 rest st2 b2 E1 eq_refl A2 H2).
  cbn [fst snd]. split; [reflexivity|].
  unfold s1, api_request. simpl. now rewrite <- app_assoc.
Qed.

Lemma home_getters_not_cached_witness :
  (Home.presence 0%nat
     (sample_state [ok_json (PStr "HOME"); ok_json (PStr "AWAY")])).1
  = Ok (PStr "HOME")
  ∧ (Home.presence 0%nat
       (Home.presence 0%nat
          (sample_state [ok_json (PStr "HOME"); ok_json (PStr "AWAY")])).2).1
    = Ok (PStr "AWAY").
Proof.
  destruct (home_getters_not_cached (PInt 1) Home.presence _ 0%nat
              (sample_state [ok_json (PStr "HOME"); ok_json (PStr "AWAY")])
              sample_home (ok_json (PStr "HOME")) (ok_json (PStr "AWAY")) []
              200 200 (PStr "HOME") (PStr "AWAY")
              (list_elem_of_here _ _) eq_refl eq_refl eq_refl
              ltac:(lia) eq_refl ltac:(lia)) as (H1 & H2 & _).
  split; assumption.
Defined.

(** Every accessor of the table computes by the one [GET] of its
    command. *)
Lemma home_accessors_run key prop cmd self s h :
  (key, prop, cmd) ∈ home_accessors →
  heap s !! self = Some (OHome h) →
  prop self s = (VJson <$> Home._api_call self (cmd h) "GET" None None) s.
Proof.
  intros Hf E. unfold home_accessors in Hf.
  repeat (apply elem_of_cons in Hf as [[= -> -> ->]|Hf]);
    try (now apply elem_of_nil in Hf);
    cbv beta;
    unfold Home.devices_prop, Home.home_prop, Home.installations_prop,
      Home.invitations_prop, Home.me_prop, Home.mobile_devices_prop,
      Home.users_prop, Home.weather_prop;
    try rewrite (bind_ok _ _ _ _ _ (load_home_ok _ _ _ E)); reflexivity.
Qed.

Lemma home_accessors_cmd key prop cmd h1 h2 :
  (key, prop, cmd) ∈ home_accessors →
  home_id h1 = home_id h2 → cmd h1 = cmd h2.
Proof.
  intros Hf Hid. unfold home_accessors in Hf.
  repeat (apply elem_of_cons in Hf as [[= -> -> ->]|Hf]);
    try (now apply elem_of_nil in Hf); cbv beta; now rewrite ?Hid.
Qed.

(** X12.  [devices], [home], [installations], [invitations], [me],
    [mobile_devices], [users] and [weather], read with nothing alive
    under their key, send the one GET of their command.  When the status
    is below 400 the body is returned as it was decoded; when it is 400
    or above the client response error of the status is raised and the
    key stays without a live entry. *)
Theorem home_accessors_pass_through key prop cmd self s h x rest st b :
  (key, prop, cmd) ∈ home_accessors →
  heap s !! self = Some (OHome h) → usable (OHome h) →
  cached_value key self s = None →
  pending s = x :: rest → answer x = Resp st b →
  sent (async_cached_property key prop self s).2
  = sent s ++ [api_request h (cmd h) "GET" None None]
  ∧ (st < 400 → ∀ v, b = Some v →
     (async_cached_property key prop self s).1 = Ok (VJson v))
  ∧ (400 ≤ st →
     (async_cached_property key prop self s).1
     = Raise (ClientResponseError st)
     ∧ cached_value key self (async_cached_property key prop self s).2 = None).
Proof.
  intros Hf E Hu Hv P A. unfold async_cached_property.
  destruct (attach_spec 16 60 self s (OHome h) E)
    as (c0 & E0 & _ & _ & Hnow & Hpend & Hsent & _).
  set (s0 := attach 16 60 self s) in *.
  cbn [with_cache] in E0.
  match type of E0 with _ = Some (OHome ?h') => set (h0 := h') in * end.
  assert (api_request h0 (cmd h0) "GET" None None
          = api_request h (cmd h) "GET" None None) as Hreq
    by (unfold api_request;
        now rewrite (home_accessors_cmd _ _ _ h0 h Hf eq_refl)).
  assert (prop self s0
          = (VJson <$> Home._api_call self (cmd h0) "GET" None None) s0)
    as Hprop by now apply (home_accessors_run key).
  unfold fmap, M_fmap in Hprop.
  rewrite (api_call_run _ _ _ _ _ _ _ E0), Hreq in Hprop.
  rewrite <- Hpend in P.
  rewrite (send_ok _ _ _ _ _ _ P A) in Hprop. cbn [status_of body_of] in Hprop.
  set (s1 := after x rest (api_request h (cmd h) "GET" None None) s0) in *.
  assert (sent s1 = sent s ++ [api_request h (cmd h) "GET" None None])
    as Hs1 by (unfold s1; simpl; now rewrite Hsent).
  assert (heap s1 !! self = heap s0 !! self) as Hsame by reflexivity.
  destruct (400 <=? st) eqn:E4.
  - apply Z.leb_le in E4.
    rewrite (cached_get_fail _ _ _ _ _ _ _ _ _ E Hv Hprop).
    split; [exact Hs1|]. split; [intros; lia|]. intros _.
    split; [reflexivity|]. cbn [snd].
    apply cached_value_none_later with (s := s0);
      [now apply cached_value_attach|exact Hsame|].
    unfold s1, after. cbn [now]. lia.
  - apply Z.leb_gt in E4. destruct b as [v|].
    + assert (1 ≤ 16) as H16 by lia.
      destruct (cached_get_fill _ _ _ _ _ _ _ _ _ E Hu H16 Hv Hprop Hsame)
        as (c' & -> & _).
      split; [exact Hs1|]. split; [|intros; lia].
      now intros _ v' [= <-].
    + rewrite (cached_get_fail _ _ _ _ _ _ _ _ _ E Hv Hprop).
      split; [exact Hs1|]. split; [|intros; lia]. intros _ v' [=].
Qed.

Lemma home_accessors_pass_through_witness :
  (Home.home 0%nat (sample_state [ok_json (PDict ∅)])).1
  = Ok (VJson (PDict ∅)).
Proof.
  apply (proj1 (proj2 (home_accessors_pass_through "home" Home.home_prop _
                         0%nat (sample_state [ok_json (PDict ∅)])
                         sample_home (ok_json (PDict ∅)) [] 200
                         (Some (PDict ∅))
                         (list_elem_of_further _ _ _ (list_elem_of_here _ _))
                         eq_refl usable_sample_home eq_refl eq_refl eq_refl)));
    [lia|reflexivity].
Defined.

(** *** Two reads of a cached accessor *)

(** X13.  A cached accessor whose compute raises, with nothing alive
    under its key, raises the same exception from the same state, and
    stores nothing: afterwards the key has no live entry, so the next
    read computes again. *)
Theorem cached_failure_not_cached key ms tl prop self s o e s1 :
  heap s !! self = Some o →
  cached_value key self s = None →
  prop self (attach ms tl self s) = (Raise e, s1) →
  heap s1 !! self = heap (attach ms tl self s) !! self →
  now s ≤ now s1 →
  cached_get key ms tl prop self s = (Raise e, s1)
  ∧ cached_value key self s1 = None.
Proof.
  intros E Hv Hp Hsame Ht.
  split; [now apply cached_get_fail with (o := o)|].
  apply cached_value_none_later with (s := attach ms tl self s);
    [now apply cached_value_attach|exact Hsame|].
  destruct (attach_spec ms tl self s o E) as (_ & _ & _ & _ & -> & _).
  exact Ht.
Qed.

Lemma cached_failure_not_cached_witness :
  cached_get "devices" 16 60 Home.devices_prop 0%nat
    (sample_state [status_only 500])
  = (Raise (ClientResponseError 500),
     (Home.devices_prop 0%nat
        (attach 16 60 0%nat (sample_state [status_only 500]))).2)
  ∧ cached_value "devices" 0%nat
      (Home.devices_prop 0%nat
         (attach 16 60 0%nat (sample_state [status_only 500]))).2 = None.
Proof.
  apply (cached_failure_not_cached "devices" 16 60 Home.devices_prop 0%nat
           (sample_state [status_only 500]) (OHome sample_home)).
  - reflexivity.
  - reflexivity.
  - vm_compute. reflexivity.
  - reflexivity.
  - vm_compute. discriminate.
Defined.

(** X14.  A cached accessor read with nothing alive under its key
    returns what its compute returns; a second read of the key before
    the ttl of the cache has passed since then returns the same value
    without running any compute: nothing is sent and no answer is
    consumed. *)
Theorem cached_get_twice key ms tl prop self s o v s1 d :
  heap s !! self = Some o → usable o → 1 ≤ ms →
  cached_value key self s = None →
  prop self (attach ms tl self s) = (Ok v, s1) →
  heap s1 !! self = heap (attach ms tl self s) !! self →
  d < ttl_of tl o →
  (cached_get key ms tl prop self s).1 = Ok v
  ∧ ∀ prop',
      (cached_get key ms tl prop' self
         (elapse d (cached_get key ms tl prop self s).2)).1 = Ok v
      ∧ sent (cached_get key ms tl prop' self
                (elapse d (cached_get key ms tl prop self s).2)).2
        = sent s1
      ∧ pending (cached_get key ms tl prop' self
                   (elapse d (cached_get key ms tl prop self s).2)).2
        = pending s1.
Proof.
  intros E Hu Hms Hv Hp Hsame Hd.
  destruct (cached_get_fill _ _ _ _ _ _ _ _ _ E Hu Hms Hv Hp Hsame)
    as (c' & -> & Ha & Httl).
  split; [reflexivity|]. intros prop'. cbn [snd].
  assert (is_Some (heap s1 !! self)) as Hsome.
  { rewrite Hsame.
    destruct (attach_spec ms tl self s o E) as (c0 & -> & _). eauto. }
  rewrite <- Httl in Hd.
  pose proof (cached_value_filled key self o c' v s1 d Hsome Ha Hd) as Hval.
  destruct (cached_get_read key ms tl prop' self _ v Hval)
    as (s'' & -> & Hs & Hpe & _).
  cbn [fst snd]. split; [reflexivity|]. split; [exact Hs|exact Hpe].
Qed.

Lemma cached_get_twice_witness :
  (Home.devices 0%nat (sample_state [ok_json device_list])).1
  = Ok (VJson device_list)
  ∧ (Home.devices 0%nat
       (elapse 59 (Home.devices 0%nat
                     (sample_state [ok_json device_list])).2)).1
    = Ok (VJson device_list).
Proof.
  destruct (cached_get_twice "devices" 16 60 Home.devices_prop 0%nat
              (sample_state [ok_json device_list]) (OHome sample_home)
              (VJson device_list)
              (Home.devices_prop 0%nat
                 (attach 16 60 0%nat (sample_state [ok_json device_list]))).2
              59 eq_refl usable_sample_home)
    as (H1 & H2).
  - lia.
  - reflexivity.
  - vm_compute. reflexivity.
  - reflexivity.
  - reflexivity.
  - split; [exact H1|]. apply (H2 Home.devices_prop).
Defined.

(** *** One cache per instance *)

Lemma bind_heap {A B : Type} (m : M A) (f : A → M B) s :
  (∀ s0, heap (m s0).2 = heap s0) →
  (∀ a s0, heap (f a s0).2 = heap s0) →
  heap ((m ≫= f) s).2 = heap s.
Proof.
  intros Hm Hf. unfold mbind, M_bind. specialize (Hm s).
  destruct (m s) as [[a|e] s1]; simpl in Hm; [|exact Hm].
  now rewrite Hf.
Qed.

Lemma get_heap self cmd s : heap (Home.get self cmd s).2 = heap s.
Proof. apply api_call_heap. Qed.

Lemma plain_accessors_heap key prop self s :
  (key, prop) ∈ plain_accessors → heap (prop self s).2 = heap s.
Proof.
  intros Hf. unfold plain_accessors in Hf.
  repeat (apply elem_of_cons in Hf as [[= -> ->]|Hf]);
    try (now apply elem_of_nil in Hf).
  all: unfold Home.me_prop, Zone.schedule_prop, Zone.early_start_prop,
         Zone.state_prop, Zone.capabilities_prop, Home.get_schedule,
         Home.get_early_start, Home.get_state, Home.get_capabilities.
  all: try (apply home_call_heap; intros; rewrite fmap_heap; apply get_heap).
  - rewrite fmap_heap. apply get_heap.
  - apply zone_call_heap. intros. rewrite fmap_heap.
    apply home_call_heap. intros. apply get_heap.
  - apply zone_call_heap. intros. rewrite fmap_heap.
    apply home_call_heap. intros. apply bind_heap; [apply get_heap|].
    reflexivity.
  - apply zone_call_heap. intros. rewrite fmap_heap.
    apply home_call_heap. intros. apply get_heap.
  - apply zone_call_heap. intros. rewrite fmap_heap.
    apply home_call_heap. intros. apply get_heap.
Qed.

(** X15.  The cached accessors that compute by one request write to
    the cache of the instance they are read on and to nothing else:
    every other object is as it was, the home of a zone included, and no
    object is created. *)
Theorem plain_accessors_one_instance key prop self s o l :
  (key, prop) ∈ plain_accessors →
  heap s !! self = Some o → l ≠ self →
  heap (async_cached_property key prop self s).2 !! l = heap s !! l
  ∧ length (heap (async_cached_property key prop self s).2)
    = length (heap s).
Proof.
  intros Hf E Hl. unfold async_cached_property.
  destruct (cached_get_heap key 16 60 prop self s o E
              (λ s0, plain_accessors_heap key prop self s0 Hf))
    as [->|[c ->]]; [auto|].
  split; [now apply list_lookup_insert_ne|apply length_insert].
Qed.

Lemma plain_accessors_one_instance_witness :
  heap (Zone.state 1%nat (plain_zone_state [ok_json sample_zone_state])).2
    !! 0%nat
  = Some (OHome sample_home).
Proof.
  apply (proj1 (plain_accessors_one_instance "state" Zone.state_prop 1%nat
                  (plain_zone_state [ok_json sample_zone_state])
                  (OZone plain_zone) 0%nat
                  ltac:(unfold plain_accessors; set_solver) eq_refl
                  ltac:(discriminate))).
Defined.

(** *** The state of a zone and the zones of a home *)

Lemma state_prop_run self s z h x rest st b :
  heap s !! self = Some (OZone z) → heap s !! api z = Some (OHome h) →
  pending s = x :: rest → answer x = Resp st (Some b) → st < 400 →
  Zone.state_prop self s
  = (Ok (VJson b),
     after x rest
       (api_request h [Lit "homes/"; Fmt (home_id h); Lit "/zones/";
                       Fmt (zone_id z); Lit "/state"] "GET" None None) s).
Proof.
  intros E Eh P A Hst. unfold Zone.state_prop.
  rewrite (bind_ok _ _ _ _ _ (load_zone_ok _ _ _ E)).
  unfold fmap, M_fmap, Home.get_state.
  rewrite (bind_ok _ _ _ _ _ (load_home_ok _ _ _ Eh)).
  unfold Home.get.
  now rewrite (api_call_ok _ _ _ _ _ _ _ _ _ _ _ Eh P A Hst).
Qed.

(** The first read of the state of a zone: what it returns and the
    state it leaves. *)
Lemma state_first_read self s z h x rest st b :
  heap s !! self = Some (OZone z) → heap s !! api z = Some (OHome h) →
  usable (OZone z) → cached_value "state" self s = None →
  pending s = x :: rest → answer x = Resp st (Some b) → st < 400 →
  ∃ c' s1,
    Zone.state self s = (Ok (VJson b), put_cache self (OZone z) c' s1)
    ∧ assoc "state" (links c')
      = Some {| stored := VJson b; inserted_at := now s1 |}
    ∧ ttl c' = ttl_of 60 (OZone z)
    ∧ is_Some (heap s1 !! self)
    ∧ heap s1 !! api z = Some (OHome h)
    ∧ sent s1
      = sent s ++ [api_request h [Lit "homes/"; Fmt (home_id h);
                                  Lit "/zones/"; Fmt (zone_id z);
                                  Lit "/state"] "GET" None None].
Proof.
  intros E Eh Hu Hv P A Hst.
  assert (self ≠ api z) as Hne
    by (intros Heq; rewrite <- Heq in Eh; congruence).
  destruct (attach_spec 16 60 self s (OZone z) E)
    as (c0 & E0 & _ & _ & Hnow & Hpend & Hsent & _ & Hother).
  set (s0 := attach 16 60 self s) in *.
  cbn [with_cache] in E0.
  assert (heap s0 !! api z = Some (OHome h)) as Eh0
    by (rewrite Hother; auto).
  rewrite <- Hpend in P.
  match type of E0 with _ = Some (OZone ?z') =>
    pose proof (state_prop_run self s0 z' h x rest st b E0 Eh0 P A Hst) as Hp
  end.
  cbn [zone_id] in Hp.
  assert (1 ≤ 16) as H16 by lia.
  match type of Hp with _ = (_, ?s1') => set (s1 := s1') in * end.
  destruct (cached_get_fill "state" 16 60 Zone.state_prop self s (OZone z)
              (VJson b) s1 E Hu H16 Hv Hp eq_refl) as (c' & Hrun & Ha & Httl).
  exists c', s1. split; [exact Hrun|]. split; [exact Ha|].
  split; [exact Httl|]. split; [unfold s1; simpl; rewrite E0; eauto|].
  split; [exact Eh0|]. unfold s1. simpl. now rewrite Hsent.
Qed.

(** X16.  [inside_temperature] and [humidity] of a zone read the same
    cached [state]: with nothing alive under [state], the first sends
    the one GET of the state of the zone and returns what its path gives
    on the body; the second, within the ttl, returns what its own path
    gives on that same body and sends nothing. *)
Theorem projections_share_state self s z h x rest st b d :
  heap s !! self = Some (OZone z) → heap s !! api z = Some (OHome h) →
  usable (OZone z) → cached_value "state" self s = None →
  pending s = x :: rest → answer x = Resp st (Some b) → st < 400 →
  d < ttl_of 60 (OZone z) →
  (Zone.inside_temperature self s).1
  = glom_tuple b ["sensorDataPoints.insideTemperature"; temperature_unit h]
  ∧ sent (Zone.inside_temperature self s).2
    = sent s ++ [api_request h [Lit "homes/"; Fmt (home_id h);
                                Lit "/zones/"; Fmt (zone_id z);
                                Lit "/state"] "GET" None None]
  ∧ (Zone.humidity self (elapse d (Zone.inside_temperature self s).2)).1
    = glom_tuple b ["sensorDataPoints.humidity.percentage"]
  ∧ sent (Zone.humidity self
            (elapse d (Zone.inside_temperature self s).2)).2
    = sent (Zone.inside_temperature self s).2.
Proof.
  intros E Eh Hu Hv P A Hst Hd.
  assert (self ≠ api z) as Hne
    by (intros Heq; rewrite <- Heq in Eh; congruence).
  destruct (state_first_read _ _ _ _ _ _ _ _ E Eh Hu Hv P A Hst)
    as (c' & s1 & Hrun & Ha & Httl & [o1 E1] & Eh1 & Hs1).
  set (s' := put_cache self (OZone z) c' s1) in *.
  assert (heap s' !! self = Some (with_cache (OZone z) c')) as Ez
    by (unfold s'; simpl; apply list_lookup_insert_eq;
        now apply lookup_lt_Some in E1).
  assert (heap s' !! api z = Some (OHome h)) as Eh'
    by (unfold s'; simpl; now rewrite list_lookup_insert_ne).
  assert (Zone.inside_temperature self s
          = (glom_tuple b ["sensorDataPoints.insideTemperature";
                           temperature_unit h], s')) as Hin.
  { unfold Zone.inside_temperature.
    rewrite (bind_ok _ _ _ _ _ Hrun).
    cbn [with_cache] in Ez.
    rewrite (bind_ok _ _ _ _ _ (load_zone_ok _ _ _ Ez)). cbn [api].
    now rewrite (bind_ok _ _ _ _ _ (load_home_ok _ _ _ Eh')). }
  rewrite Hin. cbn [fst snd].
  split; [reflexivity|]. split; [exact Hs1|].
  rewrite <- Httl in Hd.
  pose proof (cached_value_filled "state" self (OZone z) c' (VJson b) s1 d
                (ex_intro _ o1 E1) Ha Hd) as Hval.
  fold s' in Hval.
  destruct (cached_get_read "state" 16 60 Zone.state_prop self _ _ Hval)
    as (s'' & Hread & Hsent & _).
  unfold Zone.humidity, Zone.state, async_cached_property.
  rewrite (bind_ok _ _ _ _ _ Hread). unfold lift. cbn [fst snd glom_value].
  split; [reflexivity|exact Hsent].
Qed.

Lemma projections_share_state_witness :
  (Zone.inside_temperature 1%nat
     (plain_zone_state [ok_json sample_zone_state])).1
  = Ok (PFloat f20_5)
  ∧ sent (Zone.humidity 1%nat
            (elapse 30 (Zone.inside_temperature 1%nat
                          (plain_zone_state [ok_json sample_zone_state])).2)).2
    = sent (Zone.inside_temperature 1%nat
              (plain_zone_state [ok_json sample_zone_state])).2.
Proof.
  destruct (projections_share_state 1%nat
              (plain_zone_state [ok_json sample_zone_state]) plain_zone
              sample_home (ok_json sample_zone_state) [] 200
              sample_zone_state 30 eq_refl eq_refl usable_plain_zone
              eq_refl eq_refl eq_refl)
    as (H1 & _ & _ & H4); [lia|reflexivity|].
  split; [exact H1|exact H4].
Defined.

(** X17.  A first read of [zones] creates one [Zone] per listed
    object.  A second read within the ttl returns the same mapping, to
    the same [Zone] instances: it creates no object and sends
    nothing. *)
Theorem zones_twice self s h x rest st zs d :
  heap s !! self = Some (OHome h) → usable (OHome h) →
  cached_value "zones" self s = None →
  pending s = x :: rest →
  answer x = Resp st (Some (PList (PDict <$> zs))) → st < 400 →
  Forall (λ z, ∃ i n, zone_object z i n) zs →
  d < ttl_of 60 (OHome h) →
  ∃ m,
    (Home.zones self s).1 = Ok (VZones m)
    ∧ length (heap (Home.zones self s).2)
      = (length (heap s) + length zs)%nat
    ∧ (Home.zones self (elapse d (Home.zones self s).2)).1 = Ok (VZones m)
    ∧ length (heap (Home.zones self (elapse d (Home.zones self s).2)).2)
      = length (heap (Home.zones self s).2)
    ∧ sent (Home.zones self (elapse d (Home.zones self s).2)).2
      = sent (Home.zones self s).2.
Proof.
  intros E Hu Hv P A Hst Hz Hd.
  destruct (attach_spec 16 60 self s (OHome h) E)
    as (c0 & E0 & _ & _ & Hnow & Hpend & Hsent & Hlen & _).
  set (s0 := attach 16 60 self s) in *.
  cbn [with_cache] in E0. rewrite <- Hpend in P.
  match type of E0 with _ = Some (OHome ?h') =>
    pose proof (zones_prop_run self s0 h' x rest st zs E0 P A Hst Hz) as Hp
  end.
  match type of Hp with _ = (_, ?s1') => set (s1 := s1') in * end.
  assert (heap s1 !! self = heap s0 !! self) as Hsame
    by (unfold s1; simpl; rewrite E0; now apply lookup_app_l_Some).
  assert (1 ≤ 16) as H16 by lia.
  destruct (cached_get_fill "zones" 16 60 Home.zones_prop self s (OHome h)
              _ s1 E Hu H16 Hv Hp Hsame) as (c' & Hrun & Ha & Httl).
  unfold Home.zones, async_cached_property. rewrite Hrun. cbn [fst snd].
  eexists. split; [reflexivity|]. split.
  { unfold s1. simpl. rewrite length_insert, length_app, length_fmap. lia. }
  assert (is_Some (heap s1 !! self)) as Hsome by (rewrite Hsame, E0; eauto).
  rewrite <- Httl in Hd.
  pose proof (cached_value_filled "zones" self (OHome h) c' _ s1 d
                Hsome Ha Hd) as Hval.
  destruct (cached_get_read "zones" 16 60 Home.zones_prop self _ _ Hval)
    as (s'' & -> & Hs & _ & _ & Hl & _).
  cbn [fst snd]. split; [reflexivity|]. split; [exact Hl|exact Hs].
Qed.

Lemma zones_twice_witness :
  ∃ m,
    (Home.zones 0%nat (sample_state [ok_json (PList [PDict living])])).1
    = Ok (VZones m)
    ∧ (Home.zones 0%nat
         (elapse 59 (Home.zones 0%nat
                       (sample_state
                          [ok_json (PList [PDict living])])).2)).1
      = Ok (VZones m).
Proof.
  destruct (zones_twice 0%nat
              (sample_state [ok_json (PList [PDict living])]) sample_home
              (ok_json (PList [PDict living])) [] 200 [living] 59
              eq_refl usable_sample_home eq_refl eq_refl eq_refl)
    as (m & H1 & _ & H3 & _); [lia|exact zone_object_living|reflexivity|].
  exists m. split; assumption.
Defined.

(** *** A listing with a malformed object *)

Lemma zones_comprehension_app self good tail acc s :
  Forall (λ d, ∃ j n, zone_object d j n) good →
  Home.zones_comprehension self ((PDict <$> good) ++ tail) acc s
  = Home.zones_comprehension self tail
      (zones_dict (length (heap s)) good acc)
      (set_heap (heap s ++ (OZone ∘ Zone_of self <$> good)) s).
Proof.
  intros Hz. revert acc s.
  induction Hz as [|d zs (j & n & Hz0) Hzs IH]; intros acc s.
  - simpl. unfold set_heap. rewrite app_nil_r. now destruct s.
  - rewrite !fmap_cons, <- app_comm_cons, zones_comprehension_cons, lift_bind.
    pose proof Hz0 as (Hid & _). cbn [getitem]. rewrite Hid.
    rewrite (bind_ok _ _ _ _ _ (Zone_init_ok self d j n s Hz0)).
    cbn [hashable]. rewrite IH. cbn [zones_dict]. rewrite Hid.
    unfold set_heap. cbn [heap now pending sent default].
    rewrite length_app. cbn [length]. rewrite Nat.add_1_r.
    now rewrite <- app_assoc.
Qed.

(** The element the comprehension stops at. *)
Lemma zones_comprehension_bad self d others acc s :
  d !! "id" = None ∨ d !! "name" = None
  ∨ is_Some (d !! "self") ∨ is_Some (d !! "api") →
  Home.zones_comprehension self (PDict d :: others) acc s
  = (Raise (match d !! "id" with
            | None => KeyError (PStr "id")
            | Some _ => TypeError
            end), s).
Proof.
  intros Hbad. rewrite zones_comprehension_cons, lift_bind. cbn [getitem].
  destruct (d !! "id") as [i|] eqn:Hid; [|reflexivity].
  unfold Zone_init, mbind, M_bind. rewrite Hid.
  destruct Hbad as [?|[Hn|[[v Hs]|[v Ha]]]]; [discriminate| | |].
  - rewrite Hn. now destruct (d !! "self"), (d !! "api").
  - now rewrite Hs.
  - rewrite Ha. now destruct (d !! "self").
Qed.

(** X18.  When the listing holds, after well-formed objects, an object
    without [id], without [name], or with a field called [self] or
    [api], [zones] raises: [KeyError] on [id] when the id is missing,
    [TypeError] otherwise.  No mapping is cached, whatever the listing
    holds before or after that object. *)
Theorem zones_rejects_element self s h x rest st good d others :
  heap s !! self = Some (OHome h) →
  cached_value "zones" self s = None →
  pending s = x :: rest →
  answer x
  = Resp st (Some (PList ((PDict <$> good) ++ PDict d :: others))) →
  st < 400 →
  Forall (λ z, ∃ i n, zone_object z i n) good →
  d !! "id" = None ∨ d !! "name" = None
  ∨ is_Some (d !! "self") ∨ is_Some (d !! "api") →
  (Home.zones self s).1
  = Raise (match d !! "id" with
           | None => KeyError (PStr "id")
           | Some _ => TypeError
           end)
  ∧ cached_value "zones" self (Home.zones self s).2 = None.
Proof.
  intros E Hv P A Hst Hz Hbad.
  destruct (attach_spec 16 60 self s (OHome h) E)
    as (c0 & E0 & _ & _ & Hnow & Hpend & _).
  set (s0 := attach 16 60 self s) in *.
  cbn [with_cache] in E0. rewrite <- Hpend in P.
  assert (∃ s1, Home.zones_prop self s0
                = (Raise (match d !! "id" with
                          | None => KeyError (PStr "id")
                          | Some _ => TypeError
                          end), s1)
                ∧ heap s1 !! self = heap s0 !! self ∧ now s0 ≤ now s1)
    as (s1 & Hp & Hsame & Ht).
  { unfold Home.zones_prop.
    rewrite (bind_ok _ _ _ _ _ (load_home_ok _ _ _ E0)). unfold Home.get.
    rewrite (bind_ok _ _ _ _ _
               (api_call_ok _ _ _ _ _ _ _ _ _ _ _ E0 P A Hst)).
    rewrite lift_bind. cbn [py_iter]. unfold fmap at 1, M_fmap.
    rewrite (zones_comprehension_app _ _ _ _ _ Hz).
    rewrite (zones_comprehension_bad _ _ _ _ _ Hbad).
    eexists. split; [reflexivity|]. simpl. rewrite E0.
    split; [now apply lookup_app_l_Some|lia]. }
  unfold Home.zones, async_cached_property.
  rewrite (cached_get_fail _ _ _ _ _ _ _ _ _ E Hv Hp).
  split; [reflexivity|]. cbn [snd].
  apply cached_value_none_later with (s := s0);
    [now apply cached_value_attach|exact Hsame|exact Ht].
Qed.

Lemma zones_rejects_element_witness :
  (Home.zones 0%nat
     (sample_state [ok_json (PList [PDict living; PDict nameless])])).1
  = Raise TypeError.
Proof.
  apply (proj1 (zones_rejects_element 0%nat
                  (sample_state
                     [ok_json (PList [PDict living; PDict nameless])])
                  sample_home
                  (ok_json (PList [PDict living; PDict nameless])) [] 200
                  [living] nameless [] eq_refl eq_refl eq_refl eq_refl
                  ltac:(lia) zone_object_living
                  ltac:(right; left; reflexivity))).
Defined.
